(** * mirage/tools: the two JSON rescaling scripts

    A shallow embedding of [tools/scale_config.py] (the generic destination
    scaler) and [tools/scale_frames.py] (the sprite-atlas frame scaler),
    together with the properties their specification states.

    Python values are modelled as they come out of [json.load]: a tree of
    dicts (insertion ordered, so association lists), lists, arbitrary
    precision ints ([Z]), IEEE binary64 floats (the kernel's [float]),
    strings, booleans and [None].  Exceptions are an explicit error result.
    In-place mutation is state passing: a loop carries the container as
    mutated so far.  Limits of the interpreter (recursion depth, memory) are
    not modelled. *)

From Stdlib Require Import ZArith List String Ascii Bool Floats Lia.
Import ListNotations.

Local Open Scope string_scope.
Local Open Scope list_scope.

(** ** Exceptions *)

Inductive exn : Set :=
| TypeError
| ValueError
| OverflowError
| AttributeError
| KeyError
| IndexError
| OSError.

Inductive result (A : Type) : Type :=
| Ok (a : A)
| Raise (e : exn).

Arguments Ok {A} a.
Arguments Raise {A} e.

Definition bind {A B : Type} (r : result A) (k : A -> result B) : result B :=
  match r with
  | Ok a => k a
  | Raise e => Raise e
  end.

Notation "x <- c1 ;; c2" := (bind c1 (fun x => c2))
  (at level 61, c1 at next level, right associativity).

Fixpoint mapM {A B : Type} (f : A -> result B) (l : list A) : result (list B) :=
  match l with
  | [] => Ok []
  | a :: l' => b <- f a ;; bs <- mapM f l' ;; Ok (b :: bs)
  end.

(** ** JSON values *)

Unset Elimination Schemes.

Inductive json : Type :=
| JNull
| JBool (b : bool)
| JInt (n : Z)
| JFloat (f : float)
| JStr (s : string)
| JList (l : list json)
| JDict (d : list (string * json)).

Set Elimination Schemes.

Definition dict : Type := list (string * json).

(** The induction principle that reaches inside lists and dicts. *)
Section json_induction.
Variable P : json -> Prop.
Hypothesis Hnull : P JNull.
Hypothesis Hbool : forall b, P (JBool b).
Hypothesis Hint : forall n, P (JInt n).
Hypothesis Hfloat : forall f, P (JFloat f).
Hypothesis Hstr : forall s, P (JStr s).
Hypothesis Hlist : forall l, Forall P l -> P (JList l).
Hypothesis Hdict : forall d, Forall (fun kv => P (snd kv)) d -> P (JDict d).

Fixpoint json_nested_ind (j : json) : P j :=
  match j with
  | JNull => Hnull
  | JBool b => Hbool b
  | JInt n => Hint n
  | JFloat f => Hfloat f
  | JStr s => Hstr s
  | JList l =>
      Hlist l ((fix go (l : list json) : Forall P l :=
                  match l with
                  | [] => Forall_nil _
                  | x :: r => Forall_cons x (json_nested_ind x) (go r)
                  end) l)
  | JDict d =>
      Hdict d ((fix go (d : dict) : Forall (fun kv => P (snd kv)) d :=
                  match d with
                  | [] => Forall_nil _
                  | kv :: r =>
                      Forall_cons kv (json_nested_ind (snd kv)) (go r)
                  end) d)
  end.
End json_induction.

(** ** Dict and list stores *)

Fixpoint dict_get (k : string) (d : dict) : option json :=
  match d with
  | [] => None
  | (k', v) :: r => if String.eqb k k' then Some v else dict_get k r
  end.

Definition dict_mem (k : string) (d : dict) : bool :=
  match dict_get k d with Some _ => true | None => false end.

(** [d[k] = v]: an existing key keeps its position, a new key goes last. *)
Fixpoint dict_set (k : string) (v : json) (d : dict) : dict :=
  match d with
  | [] => [(k, v)]
  | (k', v') :: r =>
      if String.eqb k k' then (k, v) :: r else (k', v') :: dict_set k v r
  end.

(** [l[i] = v]; Python raises [IndexError] out of range. *)
Fixpoint list_setitem (i : nat) (v : json) (l : list json) : result (list json) :=
  match l, i with
  | [], _ => Raise IndexError
  | _ :: r, O => Ok (v :: r)
  | x :: r, S i' => r' <- list_setitem i' v r ;; Ok (x :: r')
  end.

(** Documents produced by [json.load] have no repeated key in any dict. *)
Fixpoint nodupb (l : list string) : bool :=
  match l with
  | [] => true
  | k :: r => negb (existsb (String.eqb k) r) && nodupb r
  end.

Fixpoint wf_json (j : json) : bool :=
  match j with
  | JList l => forallb wf_json l
  | JDict d => nodupb (map fst d) && forallb (fun kv => wf_json (snd kv)) d
  | _ => true
  end.

(** ** Paths into a document *)

Inductive step : Set :=
| Key (k : string)
| Index (i : nat).

Fixpoint lookup (p : list step) (j : json) : option json :=
  match p with
  | [] => Some j
  | Key k :: p' =>
      match j with
      | JDict d =>
          match dict_get k d with
          | Some v => lookup p' v
          | None => None
          end
      | _ => None
      end
  | Index i :: p' =>
      match j with
      | JList l =>
          match nth_error l i with
          | Some v => lookup p' v
          | None => None
          end
      | _ => None
      end
  end.

(** ** Python numbers *)

(** [bool] is a subclass of [int]: in arithmetic [True] is 1 and [False] 0. *)
Inductive pynum : Set :=
| PInt (n : Z)
| PFloat (f : float).

Definition as_number (v : json) : option pynum :=
  match v with
  | JBool b => Some (PInt (Z.b2z b))
  | JInt n => Some (PInt n)
  | JFloat f => Some (PFloat f)
  | _ => None
  end.

(** [isinstance(value, (int, float))] *)
Definition is_number (v : json) : bool :=
  match as_number v with Some _ => true | None => false end.

Definition json_of_num (n : pynum) : json :=
  match n with
  | PInt z => JInt z
  | PFloat f => JFloat f
  end.

(** [float(n)] for an int: correctly rounded (ties to even), and
    [OverflowError] when the int is too large for a binary64. *)
Definition float_of_int (n : Z) : result float :=
  match binary_normalize prec emax n 0 false with
  | S754_infinity _ => Raise OverflowError
  | sf => Ok (SF2Prim sf)
  end.

Definition to_float (n : pynum) : result float :=
  match n with
  | PInt z => float_of_int z
  | PFloat f => Ok f
  end.

(** [a * b] on numbers: ints multiply exactly; as soon as one side is a
    float the other is converted and the product is the binary64 one. *)
Definition py_mul (a b : pynum) : result pynum :=
  match a, b with
  | PInt x, PInt y => Ok (PInt (x * y))
  | _, _ =>
      fa <- to_float a ;;
      fb <- to_float b ;;
      Ok (PFloat (fa * fb)%float)
  end.

(** Rounding [m * 2^e] (with [m > 0]) to an integer, ties to even. *)
Definition round_half_even (m e : Z) : Z :=
  if (0 <=? e)%Z then (m * 2 ^ e)%Z
  else
    let d := (2 ^ (- e))%Z in
    let q := (m / d)%Z in
    let r := (m mod d)%Z in
    match (2 * r ?= d)%Z with
    | Lt => q
    | Gt => (q + 1)%Z
    | Eq => if Z.even q then q else (q + 1)%Z
    end.

(** [round(x)] for a float, one argument: the nearest int, ties to even;
    [ValueError] on NaN and [OverflowError] on an infinity. *)
Definition py_round (x : float) : result Z :=
  match Prim2SF x with
  | S754_nan => Raise ValueError
  | S754_infinity _ => Raise OverflowError
  | S754_zero _ => Ok 0%Z
  | S754_finite s m e => Ok (cond_Zopp s (round_half_even (Zpos m) e))
  end.

(** [needle in hay] on strings. *)
Fixpoint contains (needle hay : string) : bool :=
  String.prefix needle hay
  || match hay with
     | EmptyString => false
     | String _ t => contains needle t
     end.

Definition half : float := 0.5%float.
Definition quarter : float := 0.25%float.

(** ** The process environment

    What a run of either script can observe and change: the files, the
    standard output, and the record of which files were opened.  The JSON
    text codec ([json.load], [json.dump]) is the Python library's, not the
    repository's, and is a parameter of the two [main] functions.

    [writable path] tells whether [open(path, 'w')] succeeds.
    [write_error path text] tells how writing [text] to the opened file
    ends: [None] when the whole text reaches the file, [Some partial] when the
    write fails on the way (disk full, I/O error) with [partial] being what
    the file is left holding. *)

Inductive file_mode : Set := ForReading | ForWriting.

Record world : Type := {
  files : string -> option string;
  writable : string -> bool;
  write_error : string -> string -> option string;
  stdout : list string;
  opened : list (file_mode * string)
}.

Inductive outcome : Set :=
| Exited (status : nat)
| Uncaught (e : exn).

Definition print (line : string) (w : world) : world :=
  {| files := files w; writable := writable w; write_error := write_error w;
     stdout := stdout w ++ [line]; opened := opened w |}.

(** [with open(path, 'r') as f: ... f.read()] *)
Definition read_file (path : string) (w : world) : result string * world :=
  match files w path with
  | Some text =>
      (Ok text,
       {| files := files w; writable := writable w;
          write_error := write_error w; stdout := stdout w;
          opened := opened w ++ [(ForReading, path)] |})
  | None => (Raise OSError, w)
  end.

(** [with open(path, 'w') as f: f.write(text)].  When [open] fails
    nothing has changed.  Once it has succeeded the file exists and its old
    content is gone; the write then either goes through or raises, and in
    the second case the file keeps what had reached it. *)
Definition write_file (path text : string) (w : world) : result unit * world :=
  if writable w path then
    match write_error w path text with
    | None =>
        (Ok tt,
         {| files := fun q => if String.eqb q path then Some text else files w q;
            writable := writable w; write_error := write_error w;
            stdout := stdout w;
            opened := opened w ++ [(ForWriting, path)] |})
    | Some partial =>
        (Raise OSError,
         {| files := fun q =>
                       if String.eqb q path then Some partial else files w q;
            writable := writable w; write_error := write_error w;
            stdout := stdout w;
            opened := opened w ++ [(ForWriting, path)] |})
    end
  else (Raise OSError, w).

(** ** tools/scale_config.py *)

Module ScaleConfig.

(** ["dest_x" in key or "dest_y" in key] *)
Definition key_matches (key : string) : bool :=
  contains "dest_x" key || contains "dest_y" key.

(** [value * scale] for a [value] that passed the [isinstance] test. *)
Definition scaled (value : json) (scale : pynum) : result json :=
  match as_number value with
  | Some n => r <- py_mul n scale ;; Ok (json_of_num r)
  | None => Raise TypeError
  end.

Section loops.
Variable scale : pynum.
Variable recur : json -> result json.

(** [for key, value in obj.items(): obj[key] = ...]; [cur] is the dict
    as mutated so far.  A round writes only the entry it reads, so with
    distinct keys the values iterated are those the dict had on entry. *)
Fixpoint dict_loop (items : dict) (cur : dict) : result dict :=
  match items with
  | [] => Ok cur
  | (key, value) :: rest =>
      if is_number value && key_matches key then
        v' <- scaled value scale ;;
        dict_loop rest (dict_set key v' cur)
      else
        v' <- recur value ;;
        dict_loop rest (dict_set key v' cur)
  end.

(** [for i in range(len(obj)): obj[i] = scale_destinations(obj[i], scale)];
    round [i] reads only position [i], which no earlier round has written. *)
Fixpoint list_loop (elems : list json) (i : nat) (cur : list json)
  : result (list json) :=
  match elems with
  | [] => Ok cur
  | x :: rest =>
      x' <- recur x ;;
      cur' <- list_setitem i x' cur ;;
      list_loop rest (S i) cur'
  end.
End loops.

Fixpoint scale_destinations (scale : pynum) (obj : json) : result json :=
  match obj with
  | JDict d =>
      d' <- dict_loop scale (scale_destinations scale) d d ;; Ok (JDict d')
  | JList l =>
      l' <- list_loop (scale_destinations scale) l 0 l ;; Ok (JList l')
  | _ => Ok obj
  end.

Definition usage : string :=
  "Usage: python scale_config.py input.json output.json".

Section main.
Variable json_loads : string -> option json.
Variable json_dumps : nat -> json -> string.

Definition main (argv : list string) (w : world) : outcome * world :=
  match argv with
  | [_; input_file; output_file] =>
      match read_file input_file w with
      | (Raise e, w1) => (Uncaught e, w1)
      | (Ok text, w1) =>
          match json_loads text with
          | None => (Uncaught ValueError, w1)
          | Some data =>
              match scale_destinations (PFloat half) data with
              | Raise e => (Uncaught e, w1)
              | Ok scaled_data =>
                  match write_file output_file
                          (json_dumps 3 scaled_data) w1 with
                  | (Raise e, w2) => (Uncaught e, w2)
                  | (Ok _, w2) =>
                      (Exited 0,
                       print ("Scaled all dest_x and dest_y values by 50% and saved to "
                                ++ output_file) w2)
                  end
              end
          end
      end
  | _ => (Exited 1, print usage w)
  end.
End main.

End ScaleConfig.

(** ** tools/scale_frames.py *)

Module ScaleFrames.

(** [int(round(val * factor))], for a number [factor]: the product of two
    ints is an int and [round] keeps it; any other product is a float,
    rounded to the nearest int, ties to even.  A [val] that is not a number
    raises [TypeError]. *)
Definition scale_value (val : json) (factor : pynum) : result json :=
  match as_number val with
  | Some n =>
      p <- py_mul n factor ;;
      match p with
      | PInt z => Ok (JInt z)
      | PFloat f => z <- py_round f ;; Ok (JInt z)
      end
  | None => Raise TypeError
  end.

(** [key in container], for a string [key] *)
Definition py_in (key : string) (container : json) : result bool :=
  match container with
  | JDict d => Ok (dict_mem key d)
  | JList l =>
      Ok (existsb (fun x => match x with
                            | JStr s => String.eqb key s
                            | _ => false
                            end) l)
  | JStr s => Ok (contains key s)
  | _ => Raise TypeError
  end.

(** [container[key]], for a string [key] *)
Definition py_getitem (container : json) (key : string) : result json :=
  match container with
  | JDict d =>
      match dict_get key d with
      | Some v => Ok v
      | None => Raise KeyError
      end
  | _ => Raise TypeError
  end.

(** [container[key] = v], for a string [key] *)
Definition py_setitem (container : json) (key : string) (v : json)
  : result json :=
  match container with
  | JDict d => Ok (JDict (dict_set key v d))
  | _ => Raise TypeError
  end.

(** One round of the loop in [scale_dict]. *)
Definition scale_key (factor : pynum) (key : string) (data_dict : json)
  : result json :=
  present <- py_in key data_dict ;;
  if present : bool then
    old <- py_getitem data_dict key ;;
    new <- scale_value old factor ;;
    py_setitem data_dict key new
  else Ok data_dict.

Fixpoint for_keys (factor : pynum) (ks : list string) (data_dict : json)
  : result json :=
  match ks with
  | [] => Ok data_dict
  | key :: rest =>
      data_dict' <- scale_key factor key data_dict ;;
      for_keys factor rest data_dict'
  end.

Definition scale_dict (data_dict : json) (factor : pynum) : result json :=
  for_keys factor ["x"; "y"; "w"; "h"] data_dict.

Definition scale_factor : pynum := PFloat half.

(** [if name in frame: frame[name] = scale_dict(frame[name], scale_factor)] *)
Definition scale_sub (name : string) (frame : json) : result json :=
  present <- py_in name frame ;;
  if present : bool then
    sub <- py_getitem frame name ;;
    sub' <- scale_dict sub scale_factor ;;
    py_setitem frame name sub'
  else Ok frame.

(** The body of the loop over the frames. *)
Definition scale_frame (frame : json) : result json :=
  f1 <- scale_sub "frame" frame ;;
  f2 <- scale_sub "spriteSourceSize" f1 ;;
  scale_sub "sourceSize" f2.

(** [for frame_key, frame in frames.items(): ...]; each frame object is
    mutated in place, which the dict [cur] records. *)
Fixpoint frames_loop (items : dict) (cur : dict) : result dict :=
  match items with
  | [] => Ok cur
  | (frame_key, frame) :: rest =>
      frame' <- scale_frame frame ;;
      frames_loop rest (dict_set frame_key frame' cur)
  end.

(** The part of [main] between [json.load] and [json.dump]. *)
Definition scale_frames (data : json) : result json :=
  match data with
  | JDict d =>
      match dict_get "frames" d with
      | None => Ok data
      | Some (JDict frames) =>
          frames' <- frames_loop frames frames ;;
          Ok (JDict (dict_set "frames" (JDict frames') d))
      | Some _ => Raise AttributeError
      end
  | _ => Raise AttributeError
  end.

Definition usage : string :=
  "Usage: python scale_frames.py input.json output.json".

Section main.
Variable json_loads : string -> option json.
Variable json_dumps : nat -> json -> string.

Definition main (argv : list string) (w : world) : outcome * world :=
  match argv with
  | [_; input_file; output_file] =>
      match read_file input_file w with
      | (Raise e, w1) => (Uncaught e, w1)
      | (Ok text, w1) =>
          match json_loads text with
          | None => (Uncaught ValueError, w1)
          | Some data =>
              match scale_frames data with
              | Raise e => (Uncaught e, w1)
              | Ok data' =>
                  match write_file output_file (json_dumps 4 data') w1 with
                  | (Raise e, w2) => (Uncaught e, w2)
                  | (Ok _, w2) =>
                      (Exited 0,
                       print "Done. Your frames have been scaled." w2)
                  end
              end
          end
      end
  | _ => (Exited 1, print usage w)
  end.
End main.

End ScaleFrames.

Import ScaleConfig ScaleFrames.

(** * Vocabulary of the properties *)

(** ** Keys, entries and targets of the generic scaler *)

Definition has_key (k : string) (d : dict) : bool :=
  existsb (String.eqb k) (map fst d).

(** What one round of the dict loop of [scale_destinations] makes of an
    entry. *)
Definition scale_entry (scale : pynum) (recur : json -> result json)
           (kv : string * json)
  : result (string * json) :=
  let (key, value) := kv in
  if is_number value && key_matches key then
    v' <- scaled value scale ;; Ok (key, v')
  else
    v' <- recur value ;; Ok (key, v').

(** The dict at path [p] of [D] has an entry [key] whose name matches the
    substring rule and whose value is the number [n]. *)
Definition targeted (D : json) (p : list step) (key : string) (n : pynum) : Prop :=
  exists d value,
    lookup p D = Some (JDict d) /\
    dict_get key d = Some value /\
    key_matches key = true /\
    as_number value = Some n.

(** Some dict entry inside [j] is a target: matching key, number value. *)
Fixpoint has_target (j : json) : bool :=
  match j with
  | JList l => existsb has_target l
  | JDict d =>
      existsb (fun kv =>
                 (is_number (snd kv) && key_matches (fst kv))
                 || has_target (snd kv)) d
  | _ => false
  end.

(** A targeted entry holds a JSON boolean somewhere inside [j]. *)
Fixpoint has_bool_target (j : json) : bool :=
  match j with
  | JList l => existsb has_bool_target l
  | JDict d =>
      existsb (fun kv =>
                 (match snd kv with JBool _ => true | _ => false end
                  && key_matches (fst kv))
                 || has_bool_target (snd kv)) d
  | _ => false
  end.

(** ** Shapes and paths *)

Unset Elimination Schemes.

(** What is left of a document when its leaves are forgotten: the keys of
    every dict in their order, the length of every list, the nesting. *)
Inductive shape : Type :=
| SLeaf
| SList (l : list shape)
| SDict (d : list (string * shape)).

Set Elimination Schemes.

Fixpoint shape_of (j : json) : shape :=
  match j with
  | JList l => SList (map shape_of l)
  | JDict d => SDict (map (fun kv => (fst kv, shape_of (snd kv))) d)
  | _ => SLeaf
  end.

Fixpoint wf_shape (s : shape) : bool :=
  match s with
  | SLeaf => true
  | SList l => forallb wf_shape l
  | SDict d => nodupb (map fst d) && forallb (fun kv => wf_shape (snd kv)) d
  end.

Definition is_container (j : json) : bool :=
  match j with
  | JList _ | JDict _ => true
  | _ => false
  end.

(** The last step of [p] is a key that matches the substring rule. *)
Definition ends_on_matching_key (p : list step) : bool :=
  match last p (Index 0) with
  | Key k => key_matches k
  | Index _ => false
  end.

(** ** The frame scaler, step by step

    [scale_dict] and the body of the frames loop share one pattern: for
    each of a fixed list of names, if the name is in the container, replace
    what it holds by its image. *)

Definition update_at (name : string) (f : json -> result json) (a : json)
  : result json :=
  present <- py_in name a ;;
  if present : bool then
    old <- py_getitem a name ;;
    new <- f old ;;
    py_setitem a name new
  else Ok a.

Fixpoint update_all (names : list string) (f : json -> result json) (a : json)
  : result json :=
  match names with
  | [] => Ok a
  | n :: rest => a' <- update_at n f a ;; update_all rest f a'
  end.

Definition coords : list string := ["x"; "y"; "w"; "h"].
Definition subs : list string := ["frame"; "spriteSourceSize"; "sourceSize"].

(** The frames loop as a map over the entries of [frames]. *)
Definition scale_frame_entry (kv : string * json) : result (string * json) :=
  frame' <- scale_frame (snd kv) ;; Ok (fst kv, frame').

Definition keeps_shape (f : json -> result json) : Prop :=
  forall a b, f a = Ok b -> shape_of b = shape_of a.

(** Paths the frame scaler may write to. *)
Definition here (q : list step) : bool :=
  match q with
  | [] => true
  | _ => false
  end.

Definition at_key (name : string) (e : list step -> bool) (q : list step) : bool :=
  match q with
  | Key k :: q' => String.eqb k name && e q'
  | _ => false
  end.

Definition at_keys (names : list string) (e : list step -> bool) (q : list step)
  : bool :=
  existsb (fun n => at_key n e q) names.

(** [frames.<any frame>.<frame|spriteSourceSize|sourceSize>.<x|y|w|h>] *)
Definition frame_target (q : list step) : bool :=
  match q with
  | Key f :: Key _ :: q' => String.eqb f "frames" && at_keys subs (at_keys coords here) q'
  | _ => false
  end.

(** [f] leaves every leaf outside the paths [e] where it was. *)
Definition keeps_leaves (e : list step -> bool) (f : json -> result json) : Prop :=
  forall a b q v,
    f a = Ok b ->
    lookup q a = Some v ->
    is_container v = false ->
    e q = false ->
    lookup q b = Some v.

(** ** Binary64 rounding *)

Local Open Scope Z_scope.

(** The last step of [binary_round_aux]: renormalise and pack. *)
Definition sf_finish (s : bool) (z e : Z) : spec_float :=
  let '(mrs, e') := shr_fexp prec emax z e loc_Exact in
  match shr_m mrs with
  | Z0 => S754_zero s
  | Zpos m => if e' <=? emax - prec then S754_finite s m e' else S754_infinity s
  | Zneg _ => S754_nan
  end.

(** A value below the normal range: zero or a subnormal. *)
Definition sf_sub (s : bool) (z : Z) : spec_float :=
  match z with
  | Z0 => S754_zero s
  | Zpos m => S754_finite s m (-1074)
  | Zneg _ => S754_nan
  end.

(** [2^-k] as a binary64: mantissa [2^52], exponent [-52 - k]. *)
Definition sf_pow2 (k : Z) : spec_float :=
  S754_finite false 4503599627370496 (-52 - k).

(** Halving [z] to the nearest integer, ties to even, and the same in one
    go for a quarter. *)
Definition rne1 (z : Z) : Z :=
  let q := Z.div2 z in
  if Z.even z then q else if Z.even q then q else q + 1.

Definition rne2 (z : Z) : Z :=
  let q := Z.div2 (Z.div2 z) in
  if Z.odd (Z.div2 z) then
    if Z.odd z then q + 1 else if Z.even q then q else q + 1
  else q.

(** ** Runs that stop at the argument check *)

(** The run [r], started in the world [w], exited with status 1 after
    printing [usage_line], and opened or changed no file. *)
Definition usage_exit (r : outcome * world) (w : world) (usage_line : string)
  : Prop :=
  fst r = Exited 1 /\
  stdout (snd r) = stdout w ++ [usage_line] /\
  opened (snd r) = opened w /\
  files (snd r) = files w.

(** A targeted entry holds a float somewhere inside [j]. *)
Fixpoint has_float_target (j : json) : bool :=
  match j with
  | JList l => existsb has_float_target l
  | JDict d =>
      existsb (fun kv =>
                 (match snd kv with JFloat _ => true | _ => false end
                  && key_matches (fst kv))
                 || has_float_target (snd kv)) d
  | _ => false
  end.

(** A targeted entry holds an int or a boolean somewhere inside [j]. *)
Fixpoint has_int_target (j : json) : bool :=
  match j with
  | JList l => existsb has_int_target l
  | JDict d =>
      existsb (fun kv =>
                 (match snd kv with JInt _ | JBool _ => true | _ => false end
                  && key_matches (fst kv))
                 || has_int_target (snd kv)) d
  | _ => false
  end.

(** [q] is the integer nearest to [m * 2^e], the even one of the two when
    [m * 2^e] lies half way between two integers. *)
Definition nearest_even (q m e : Z) : Prop :=
  (0 <= e -> q = m * 2 ^ e) /\
  (e < 0 ->
   2 * Z.abs (q * 2 ^ (- e) - m) <= 2 ^ (- e) /\
   (2 * Z.abs (q * 2 ^ (- e) - m) = 2 ^ (- e) -> Z.even q = true)).

(** Values [scale_value] is sure to scale under the script's factor:
    booleans, ints below [2^53] in magnitude, floats other than [NaN] and
    the infinities. *)
Definition scalable (v : json) : Prop :=
  match v with
  | JBool _ => True
  | JInt n => - 2 ^ 53 < n < 2 ^ 53
  | JFloat f =>
      match Prim2SF f with
      | S754_nan | S754_infinity _ => False
      | _ => True
      end
  | _ => False
  end.

(** A sub-object of a frame: a dict whose [x], [y], [w], [h], where
    present, are scalable. *)
Definition coords_ok (s : json) : Prop :=
  exists sd,
    s = JDict sd /\
    forall c v, In c coords -> dict_get c sd = Some v -> scalable v.

(** A frame: a dict whose [frame], [spriteSourceSize] and [sourceSize],
    where present, are such sub-objects. *)
Definition frame_ok (fr : json) : Prop :=
  exists frd,
    fr = JDict frd /\
    forall sub s, In sub subs -> dict_get sub frd = Some s -> coords_ok s.

(** The world [w'] is [w] after a run that read [input_file], wrote
    [dumped] to [output_file] and printed [message], and did nothing else. *)
Definition run_ok (w : world) (input_file output_file dumped message : string)
           (w' : world) : Prop :=
  files w' output_file = Some dumped /\
  (forall q, q <> output_file -> files w' q = files w q) /\
  stdout w' = stdout w ++ [message] /\
  opened w' = opened w ++ [(ForReading, input_file); (ForWriting, output_file)].

(** The world [w'] is [w] after the write to [output_file] failed on the
    way: the file holds [partial], every other file is as it was. *)
Definition write_failed (w : world) (output_file partial : string) (w' : world)
  : Prop :=
  files w' output_file = Some partial /\
  (forall q, q <> output_file -> files w' q = files w q).

(** ** Sample documents *)

Definition sample_config : json :=
  JDict [("sprites",
          JList [JDict [("dest_x", JInt 3); ("my_dest_y_2", JFloat 1.5);
                        ("name", JStr "a")];
                 JInt 4]);
         ("dest_x_group", JDict [("dest_y", JBool true); ("dest_x", JNull)]);
         ("dest_y", JStr "top")].

Definition sample_config_scaled : json :=
  JDict [("sprites",
          JList [JDict [("dest_x", JFloat 1.5); ("my_dest_y_2", JFloat 0.75);
                        ("name", JStr "a")];
                 JInt 4]);
         ("dest_x_group", JDict [("dest_y", JFloat 0.5); ("dest_x", JNull)]);
         ("dest_y", JStr "top")].

Definition sample_atlas : json :=
  JDict [("frames",
          JDict [("hero.png",
                  JDict [("frame", JDict [("x", JInt 10); ("y", JInt 20);
                                          ("w", JInt 30); ("h", JInt 40)]);
                         ("rotated", JBool false);
                         ("sourceSize", JDict [("w", JInt 11); ("h", JInt 9);
                                               ("unit", JStr "px")])])]);
         ("size", JDict [("w", JInt 100); ("h", JInt 50)])].

Definition sample_atlas_scaled : json :=
  JDict [("frames",
          JDict [("hero.png",
                  JDict [("frame", JDict [("x", JInt 5); ("y", JInt 10);
                                          ("w", JInt 15); ("h", JInt 20)]);
                         ("rotated", JBool false);
                         ("sourceSize", JDict [("w", JInt 6); ("h", JInt 4);
                                               ("unit", JStr "px")])])]);
         ("size", JDict [("w", JInt 100); ("h", JInt 50)])].

Definition atlas_eleven : json :=
  JDict [("frames",
          JDict [("a.png",
                  JDict [("frame", JDict [("x", JInt 11); ("y", JInt 20);
                                          ("w", JInt 30); ("h", JInt 40)])])])].

Definition atlas_eleven_scaled : json :=
  JDict [("frames",
          JDict [("a.png",
                  JDict [("frame", JDict [("x", JInt 6); ("y", JInt 10);
                                          ("w", JInt 15); ("h", JInt 20)])])])].

Definition one_target : json := JDict [("dest_x", JInt 2)].
Definition one_target_once : json := JDict [("dest_x", JFloat 1%float)].
Definition one_target_twice : json := JDict [("dest_x", JFloat 0.5%float)].

Definition sample_world : world :=
  {| files := fun path =>
                if String.eqb path "in.json" then Some "{}" else None;
     writable := fun _ => true;
     write_error := fun _ _ => None;
     stdout := [];
     opened := [] |}.

(** A world in which every file opens for writing and every write fails
    after one character. *)
Definition full_disk_world : world :=
  {| files := fun path =>
                if String.eqb path "in.json" then Some "{}" else None;
     writable := fun _ => true;
     write_error := fun _ _ => Some "{";
     stdout := [];
     opened := [] |}.

(** * Lemmas *)

(** ** The embedding at work *)

Example scale_value_examples :
  scale_value (JInt 9) scale_factor = Ok (JInt 4) /\
  scale_value (JInt (-11)) scale_factor = Ok (JInt (-6)) /\
  scale_value (JFloat 2.5) scale_factor = Ok (JInt 1) /\
  scale_value (JBool true) scale_factor = Ok (JInt 0) /\
  scale_value (JStr "10") scale_factor = Raise TypeError /\
  scale_value (JFloat nan) scale_factor = Raise ValueError /\
  scale_value (JFloat infinity) scale_factor = Raise OverflowError.
Proof. repeat split; vm_compute; reflexivity. Qed.

Example scale_destinations_examples :
  scale_destinations (PFloat half) sample_config = Ok sample_config_scaled /\
  scale_destinations (PFloat half) (JDict [("dest_x", JInt (10 ^ 400))])
  = Raise OverflowError /\
  scale_destinations (PFloat half) (JInt 7) = Ok (JInt 7).
Proof. repeat split; vm_compute; reflexivity. Qed.

Example scale_frames_examples :
  scale_frames sample_atlas = Ok sample_atlas_scaled /\
  scale_frames (JList []) = Raise AttributeError /\
  scale_frames (JDict [("frames", JList [])]) = Raise AttributeError /\
  scale_frames (JDict [("frames", JDict [("a", JStr "a frame")])])
  = Raise TypeError /\
  scale_frames (JDict [("frames", JDict [("a", JInt 1)])]) = Raise TypeError /\
  scale_frames (JDict [("frames", JDict [("a", JList [JInt 1])])])
  = Ok (JDict [("frames", JDict [("a", JList [JInt 1])])]) /\
  scale_frames
    (JDict [("frames", JDict [("a", JDict [("frame", JDict [("x", JStr "1")])])])])
  = Raise TypeError.
Proof. repeat split; vm_compute; reflexivity. Qed.

(** ** Binary64 arithmetic *)

Lemma digits2_pos_bounds (m : positive) :
  2 ^ (Zpos (digits2_pos m) - 1) <= Zpos m < 2 ^ Zpos (digits2_pos m).
Proof.
  induction m as [m IH | m IH |]; cbn [digits2_pos].
  - rewrite Pos2Z.inj_succ. change (Zpos m~1) with (2 * Zpos m + 1).
    replace (Z.succ (Zpos (digits2_pos m)) - 1) with (Z.succ (Zpos (digits2_pos m) - 1)) by lia.
    rewrite !Z.pow_succ_r by lia.
    destruct IH as [L U]. revert L U.
    generalize (2 ^ (Zpos (digits2_pos m) - 1)) (2 ^ Zpos (digits2_pos m)). lia.
  - rewrite Pos2Z.inj_succ. change (Zpos m~0) with (2 * Zpos m).
    replace (Z.succ (Zpos (digits2_pos m)) - 1) with (Z.succ (Zpos (digits2_pos m) - 1)) by lia.
    rewrite !Z.pow_succ_r by lia.
    destruct IH as [L U]. revert L U.
    generalize (2 ^ (Zpos (digits2_pos m) - 1)) (2 ^ Zpos (digits2_pos m)). lia.
  - simpl. lia.
Qed.

Lemma digits2_pos_le (m : positive) (n : Z) :
  Zpos m < 2 ^ n -> Zpos (digits2_pos m) <= n.
Proof.
  intro H. destruct (Z.le_gt_cases (Zpos (digits2_pos m)) n) as [L | G]; [assumption |].
  pose proof (digits2_pos_bounds m) as [B _].
  assert (2 ^ n <= 2 ^ (Zpos (digits2_pos m) - 1)).
  { destruct (Z.le_gt_cases 0 n).
    - apply Z.pow_le_mono_r; lia.
    - rewrite Z.pow_neg_r in H by lia. lia. }
  lia.
Qed.

Lemma digits2_pos_lt (m : positive) (n : Z) :
  Zpos (digits2_pos m) <= n -> Zpos m < 2 ^ n.
Proof.
  intro H. pose proof (digits2_pos_bounds m) as [_ B].
  eapply Z.lt_le_trans; [exact B |]. apply Z.pow_le_mono_r; lia.
Qed.

(** A valid finite binary64 is subnormal-aligned or has a full mantissa. *)
Lemma bounded_cases (m : positive) (e : Z) :
  bounded prec emax m e = true ->
  fexp prec emax (Zpos (digits2_pos m) + e) = e /\
  e <= 971 /\
  ((e = -1074 /\ Zpos (digits2_pos m) <= 53) \/
   (-1074 < e /\ Zpos (digits2_pos m) = 53)).
Proof.
  unfold bounded, canonical_mantissa. intro H.
  apply andb_true_iff in H as [H1 H2].
  apply Z.eqb_eq in H1. apply Z.leb_le in H2.
  split; [assumption |]. split; [exact H2 |].
  unfold fexp, SpecFloat.emin, prec, emax in H1. lia.
Qed.

Lemma binary_round_aux_shift (s : bool) (mx : positive) (ex : Z) (n : positive) :
  fexp prec emax (Zpos (digits2_pos mx) + ex) - ex = Zpos n ->
  binary_round_aux prec emax s (Zpos mx) ex loc_Exact =
  let mrs := iter_pos shr_1 n (Build_shr_record (Zpos mx) false false) in
  sf_finish s (round_nearest_even (shr_m mrs) (loc_of_shr_record mrs)) (ex + Zpos n).
Proof.
  intro H. unfold binary_round_aux, sf_finish.
  unfold shr_fexp at 1.
  change (Zdigits2 (Zpos mx)) with (Zpos (digits2_pos mx)).
  rewrite H. reflexivity.
Qed.

Lemma sf_finish_canonical (s : bool) (p : positive) (e : Z) :
  fexp prec emax (Zpos (digits2_pos p) + e) = e ->
  e <= 971 ->
  sf_finish s (Zpos p) e = S754_finite s p e.
Proof.
  intros H L. unfold sf_finish, shr_fexp.
  change (Zdigits2 (Zpos p)) with (Zpos (digits2_pos p)).
  rewrite H, Z.sub_diag. simpl.
  destruct (Z.leb_spec e 971) as [_ | G]; [reflexivity | lia].
Qed.

Lemma sf_finish_zero (s : bool) (e : Z) :
  -1074 <= e -> sf_finish s 0 e = S754_zero s.
Proof.
  intro L. unfold sf_finish, shr_fexp. simpl Zdigits2.
  destruct (fexp prec emax (0 + e) - e) eqn:E; try reflexivity.
  unfold fexp, SpecFloat.emin, prec, emax in E. lia.
Qed.

Lemma sf_finish_sub (s : bool) (z : Z) :
  0 <= z < 2 ^ 53 -> sf_finish s z (-1074) = sf_sub s z.
Proof.
  intros [L U]. destruct z as [| p | p]; [| | lia].
  - now apply sf_finish_zero.
  - apply sf_finish_canonical; [| lia].
    pose proof (digits2_pos_le p 53 U).
    unfold fexp, SpecFloat.emin, prec, emax. lia.
Qed.

Lemma binary_round_aux_canonical (s : bool) (mx : positive) (ex : Z) :
  fexp prec emax (Zpos (digits2_pos mx) + ex) = ex ->
  ex <= 971 ->
  binary_round_aux prec emax s (Zpos mx) ex loc_Exact = S754_finite s mx ex.
Proof.
  intros H L. unfold binary_round_aux.
  unfold shr_fexp at 1.
  change (Zdigits2 (Zpos mx)) with (Zpos (digits2_pos mx)).
  rewrite H, Z.sub_diag. simpl shr. cbv iota beta.
  change (round_nearest_even _ _) with (Zpos mx).
  now apply (sf_finish_canonical s mx ex).
Qed.

(** Multiplying a mantissa by [2^52] and shifting it back. *)
Lemma mul_two_52 (m : positive) :
  (m * 4503599627370496)%positive = Pos.iter xO m 52.
Proof. rewrite Pos.mul_comm. reflexivity. Qed.

Lemma digits2_pos_shl52 (m : positive) :
  Zpos (digits2_pos (Pos.iter xO m 52)) = Zpos (digits2_pos m) + 52.
Proof. cbn. lia. Qed.

Lemma shr_52 (m : positive) :
  iter_pos shr_1 52 (Build_shr_record (Zpos (Pos.iter xO m 52)) false false)
  = Build_shr_record (Zpos m) false false.
Proof. reflexivity. Qed.

Lemma shr_53 (m : positive) :
  iter_pos shr_1 53 (Build_shr_record (Zpos (Pos.iter xO m 52)) false false)
  = shr_1 (Build_shr_record (Zpos m) false false).
Proof. reflexivity. Qed.

Lemma shr_54 (m : positive) :
  iter_pos shr_1 54 (Build_shr_record (Zpos (Pos.iter xO m 52)) false false)
  = shr_1 (shr_1 (Build_shr_record (Zpos m) false false)).
Proof. reflexivity. Qed.

Lemma rne1_rne1 (z : Z) : 0 <= z -> rne1 (rne1 z) = rne2 z.
Proof.
  intro H.
  destruct z as [| [[[q | q |] | [q | q |] |] | [[q | q |] | [q | q |] |] |] | p];
    try reflexivity.
  lia.
Qed.

Lemma rne1_bounds (z : Z) : 0 <= z < 2 ^ 53 -> 0 <= rne1 z < 2 ^ 53.
Proof.
  intros [L U]. unfold rne1. rewrite Z.div2_div.
  assert (0 <= z / 2 < 2 ^ 52).
  { split; [apply Z.div_pos; lia |].
    apply Z.div_lt_upper_bound; [lia |]. exact U. }
  assert (2 ^ 52 < 2 ^ 53) by (apply Z.pow_lt_mono_r; lia).
  destruct (Z.even z), (Z.even (z / 2)); lia.
Qed.

Lemma rne2_bounds (z : Z) : 0 <= z < 2 ^ 53 -> 0 <= rne2 z < 2 ^ 53.
Proof.
  intro H. rewrite <- rne1_rne1 by lia. now apply rne1_bounds, rne1_bounds.
Qed.

Section multiply_by_a_power_of_two.
Variable s : bool.
Variable m : positive.
Variable e k : Z.

Lemma SFmul_pow2 :
  SFmul prec emax (S754_finite s m e) (sf_pow2 k)
  = binary_round_aux prec emax s (Zpos (Pos.iter xO m 52)) (e + (-52 - k)) loc_Exact.
Proof.
  unfold sf_pow2, SFmul. rewrite mul_two_52. now destruct s.
Qed.

(** The product is exact while it stays in the format. *)
Lemma SFmul_pow2_exact :
  fexp prec emax (Zpos (digits2_pos m) + (e - k)) = e - k ->
  e - k <= 971 ->
  SFmul prec emax (S754_finite s m e) (sf_pow2 k) = S754_finite s m (e - k).
Proof.
  intros H L. rewrite SFmul_pow2.
  rewrite (binary_round_aux_shift s _ _ 52).
  - cbv zeta. rewrite shr_52. cbn [shr_m loc_of_shr_record round_nearest_even].
    replace (e + (-52 - k) + 52) with (e - k) by lia.
    now apply sf_finish_canonical.
  - rewrite digits2_pos_shl52.
    replace (Zpos (digits2_pos m) + 52 + (e + (-52 - k)))
      with (Zpos (digits2_pos m) + (e - k)) by lia.
    rewrite H. lia.
Qed.

(** One bit falls off. *)
Lemma SFmul_pow2_sub1 :
  Zpos (digits2_pos m) <= 53 ->
  e - k = -1075 ->
  SFmul prec emax (S754_finite s m e) (sf_pow2 k) = sf_sub s (rne1 (Zpos m)).
Proof.
  intros D E. rewrite SFmul_pow2.
  rewrite (binary_round_aux_shift s _ _ 53).
  - cbv zeta. rewrite shr_53.
    replace (e + (-52 - k) + 53) with (-1074) by lia.
    replace (round_nearest_even _ _) with (rne1 (Zpos m))
      by (destruct m; reflexivity).
    apply sf_finish_sub, rne1_bounds.
    split; [lia | now apply digits2_pos_lt].
  - rewrite digits2_pos_shl52.
    unfold fexp, SpecFloat.emin, prec, emax. lia.
Qed.

(** Two bits fall off. *)
Lemma SFmul_pow2_sub2 :
  Zpos (digits2_pos m) <= 53 ->
  e - k = -1076 ->
  SFmul prec emax (S754_finite s m e) (sf_pow2 k) = sf_sub s (rne2 (Zpos m)).
Proof.
  intros D E. rewrite SFmul_pow2.
  rewrite (binary_round_aux_shift s _ _ 54).
  - cbv zeta. rewrite shr_54.
    replace (e + (-52 - k) + 54) with (-1074) by lia.
    replace (round_nearest_even _ _) with (rne2 (Zpos m))
      by (destruct m as [[p | p |] | [p | p |] |]; reflexivity).
    apply sf_finish_sub, rne2_bounds.
    split; [lia | now apply digits2_pos_lt].
  - rewrite digits2_pos_shl52.
    unfold fexp, SpecFloat.emin, prec, emax. lia.
Qed.

End multiply_by_a_power_of_two.

Lemma sf_sub_half (s : bool) (z : Z) :
  0 <= z < 2 ^ 53 ->
  SFmul prec emax (sf_sub s z) (sf_pow2 1) = sf_sub s (rne1 z).
Proof.
  intros [L U]. destruct z as [| p | p]; [| | lia].
  - now destruct s.
  - apply SFmul_pow2_sub1; [now apply digits2_pos_le | reflexivity].
Qed.

(** Halving twice is quartering, roundings included. *)
Lemma SFmul_half_half (x : spec_float) :
  valid_binary x = true ->
  SFmul prec emax (SFmul prec emax x (sf_pow2 1)) (sf_pow2 1)
  = SFmul prec emax x (sf_pow2 2).
Proof.
  destruct x as [s | s | | s m e]; try (intros _; now destruct s); [reflexivity |].
  intro V. apply bounded_cases in V as (C & L & [[-> D] | [G D]]).
  - rewrite (SFmul_pow2_sub1 s m (-1074) 1 D eq_refl).
    rewrite (SFmul_pow2_sub2 s m (-1074) 2 D eq_refl).
    rewrite sf_sub_half.
    + now rewrite rne1_rne1.
    + apply rne1_bounds. split; [lia | now apply digits2_pos_lt].
  - assert (F : forall j, -1074 <= e - j ->
                          fexp prec emax (Zpos (digits2_pos m) + (e - j)) = e - j)
      by (intros j Hj; rewrite D; unfold fexp, SpecFloat.emin, prec, emax; lia).
    destruct (Z.eq_dec e (-1073)) as [-> | N].
    + rewrite (SFmul_pow2_exact s m (-1073) 1) by (try apply F; lia).
      change (-1073 - 1) with (-1074).
      rewrite (SFmul_pow2_sub1 s m (-1074) 1) by lia.
      now rewrite (SFmul_pow2_sub1 s m (-1073) 2) by lia.
    + rewrite (SFmul_pow2_exact s m e 1) by (try apply F; lia).
      rewrite (SFmul_pow2_exact s m (e - 1) 1).
      * rewrite (SFmul_pow2_exact s m e 2) by (try apply F; lia).
        f_equal. lia.
      * replace (e - 1 - 1) with (e - 2) by lia. apply F. lia.
      * lia.
Qed.

Lemma SFmul_one (x : spec_float) :
  valid_binary x = true -> SFmul prec emax x (sf_pow2 0) = x.
Proof.
  destruct x as [s | s | | s m e]; try (intros _; now destruct s); [reflexivity |].
  intro V. apply bounded_cases in V as (C & L & _).
  rewrite SFmul_pow2_exact; rewrite ?Z.sub_0_r; auto.
Qed.

Lemma mul_half_half (x : float) : (x * half * half = x * quarter)%float.
Proof.
  apply Prim2SF_inj. rewrite !mul_spec.
  change (Prim2SF half) with (sf_pow2 1).
  change (Prim2SF quarter) with (sf_pow2 2).
  apply SFmul_half_half, Prim2SF_valid.
Qed.

Lemma mul_one (x : float) : (x * 1 = x)%float.
Proof.
  apply Prim2SF_inj. rewrite mul_spec.
  change (Prim2SF 1) with (sf_pow2 0).
  apply SFmul_one, Prim2SF_valid.
Qed.

(** ** Ints as floats, and back *)

Lemma iter_xO_value (m k : positive) :
  Zpos (Pos.iter xO m k) = Zpos m * 2 ^ Zpos k.
Proof.
  induction k as [| k IH] using Pos.peano_ind.
  - simpl. lia.
  - rewrite Pos.iter_succ, Pos2Z.inj_succ, Z.pow_succ_r by lia.
    change (Zpos (Pos.iter xO m k)~0) with (2 * Zpos (Pos.iter xO m k)).
    rewrite IH. ring.
Qed.

Lemma iter_xO_digits (m k : positive) :
  Zpos (digits2_pos (Pos.iter xO m k)) = Zpos (digits2_pos m) + Zpos k.
Proof.
  induction k as [| k IH] using Pos.peano_ind.
  - simpl. lia.
  - rewrite Pos.iter_succ. cbn [digits2_pos]. lia.
Qed.

(** An int below [2^53] in magnitude converts exactly: the mantissa is the
    int shifted up to 53 bits. *)
Lemma binary_round_small (s : bool) (m : positive) :
  Zpos m < 2 ^ 53 ->
  exists mz,
    binary_round prec emax s m 0
    = S754_finite s mz (Zpos (digits2_pos m) - 53) /\
    Zpos (digits2_pos mz) = 53 /\
    Zpos mz = Zpos m * 2 ^ (53 - Zpos (digits2_pos m)).
Proof.
  intro U. pose proof (digits2_pos_le m 53 U) as D.
  unfold binary_round.
  assert (F : fexp prec emax (Zpos (digits2_pos m) + 0) = Zpos (digits2_pos m) - 53)
    by (unfold fexp, SpecFloat.emin, prec, emax; lia).
  rewrite F. unfold shl_align.
  destruct (Zpos (digits2_pos m) - 53 - 0) as [| k | k] eqn:E; [| lia |].
  - exists m. replace (Zpos (digits2_pos m) - 53) with 0 by lia.
    replace (53 - Zpos (digits2_pos m)) with 0 by lia.
    repeat split; [| lia | lia].
    apply binary_round_aux_canonical; [| lia].
    unfold fexp, SpecFloat.emin, prec, emax. lia.
  - exists (Pos.iter xO m k).
    pose proof (iter_xO_digits m k) as Dk.
    repeat split.
    + apply binary_round_aux_canonical; [| lia].
      rewrite Dk. unfold fexp, SpecFloat.emin, prec, emax. lia.
    + lia.
    + rewrite iter_xO_value. f_equal. f_equal. lia.
Qed.

Lemma rne1_spec (z : Z) :
  (Z.even z = true -> 2 * rne1 z = z) /\
  (Z.even z = false ->
   Z.even (rne1 z) = true /\ (2 * rne1 z = z - 1 \/ 2 * rne1 z = z + 1)).
Proof.
  unfold rne1. pose proof (Z.div2_odd z) as E.
  rewrite <- Z.negb_odd in *.
  destruct (Z.odd z); cbn [negb Z.b2z] in *; split; try discriminate; intros _.
  - destruct (Z.even (Z.div2 z)) eqn:Q.
    + split; [assumption | left; lia].
    + split; [| right; lia].
      rewrite Z.add_1_r, Z.even_succ, <- Z.negb_even, Q. reflexivity.
  - lia.
Qed.

(** Rounding the half of a positive int given as a 53-bit mantissa. *)
Lemma round_half_even_half (m mz : positive) :
  Zpos (digits2_pos m) <= 53 ->
  Zpos mz = Zpos m * 2 ^ (53 - Zpos (digits2_pos m)) ->
  round_half_even (Zpos mz) (Zpos (digits2_pos m) - 53 - 1) = rne1 (Zpos m).
Proof.
  intros D V. unfold round_half_even.
  destruct (Z.leb_spec 0 (Zpos (digits2_pos m) - 53 - 1)) as [L | _]; [lia |].
  cbv zeta.
  replace (- (Zpos (digits2_pos m) - 53 - 1))
    with (Z.succ (53 - Zpos (digits2_pos m))) by lia.
  rewrite Z.pow_succ_r by lia. rewrite V.
  set (c := 2 ^ (53 - Zpos (digits2_pos m))).
  assert (C : 0 < c) by (apply Z.pow_pos_nonneg; lia).
  rewrite Z.div_mul_cancel_r, Z.mul_mod_distr_r by lia.
  unfold rne1. rewrite Z.div2_div, Zmod_even.
  destruct (Z.even (Zpos m)).
  - replace (2 * (0 * c) ?= 2 * c) with Lt
      by (symmetry; apply Z.compare_lt_iff; lia).
    reflexivity.
  - replace (2 * (1 * c) ?= 2 * c) with Eq
      by (symmetry; apply Z.compare_eq_iff; lia).
    reflexivity.
Qed.

Lemma float_of_int_signed (s : bool) (m : positive) :
  binary_normalize prec emax (cond_Zopp s (Zpos m)) 0 false
  = binary_round prec emax s m 0.
Proof. now destruct s. Qed.

Lemma py_mul_float (n : pynum) (f : float) :
  py_mul n (PFloat f) = (fa <- to_float n ;; Ok (PFloat (fa * f)%float)).
Proof.
  destruct n as [z | x]; simpl; [| reflexivity].
  now destruct (float_of_int z).
Qed.

(** ** The error monad and the stores *)

Lemma bind_ok {A B : Type} (r : result A) (k : A -> result B) (b : B) :
  (x <- r ;; k x) = Ok b -> exists a, r = Ok a /\ k a = Ok b.
Proof. destruct r; simpl; [eauto | discriminate]. Qed.

Ltac bind_inv H :=
  let a := fresh "a" in
  let Ha := fresh "Ha" in
  apply bind_ok in H as (a & Ha & H).

Lemma bind_ret {A : Type} (r : result A) : (x <- r ;; Ok x) = r.
Proof. now destruct r. Qed.

Lemma mapM_Forall2 {A B : Type} (f : A -> result B) (l : list A) (l' : list B) :
  mapM f l = Ok l' <-> Forall2 (fun a b => f a = Ok b) l l'.
Proof.
  revert l'; induction l as [|a l IH]; intros l'; simpl.
  - split; intro H.
    + injection H as <-. constructor.
    + inversion H. reflexivity.
  - split; intro H.
    + bind_inv H. bind_inv H. injection H as <-.
      constructor; [assumption | now apply IH].
    + inversion H as [|? b ? bs Hb Hbs]; subst.
      rewrite Hb. simpl. apply IH in Hbs. rewrite Hbs. reflexivity.
Qed.

Lemma mapM_total {A B : Type} (f : A -> result B) (l : list A) :
  Forall (fun a => exists b, f a = Ok b) l -> exists l', mapM f l = Ok l'.
Proof.
  induction 1 as [|a l [b Hb] _ [l' Hl']]; simpl.
  - now exists [].
  - exists (b :: l'). now rewrite Hb, Hl'.
Qed.

Lemma mapM_id {A : Type} (f : A -> result A) (l : list A) :
  Forall (fun a => f a = Ok a) l -> mapM f l = Ok l.
Proof.
  induction 1 as [|a l Ha _ IH]; simpl; [reflexivity |].
  now rewrite Ha, IH.
Qed.

Lemma mapM_pair {A B C : Type} (f : A -> result B) (g : B -> result C)
      (h : A -> result C) (l : list A) (l1 : list B) :
  Forall2 (fun a b => f a = Ok b) l l1 ->
  (forall a b, In a l -> f a = Ok b -> exists c, g b = Ok c /\ h a = Ok c) ->
  exists l2, mapM g l1 = Ok l2 /\ mapM h l = Ok l2.
Proof.
  induction 1 as [| a b l l1 Hab _ IH]; intro K; simpl.
  - now exists [].
  - destruct (K a b (or_introl eq_refl) Hab) as (c & Hg & Hh).
    destruct IH as (l2 & Hg2 & Hh2).
    { intros a0 b0 I. apply K. now right. }
    exists (c :: l2). now rewrite Hg, Hh, Hg2, Hh2.
Qed.

Lemma dict_get_none (k : string) (d : dict) :
  dict_get k d = None <-> has_key k d = false.
Proof.
  unfold has_key. induction d as [|[k' v] d IH]; simpl.
  - tauto.
  - destruct (String.eqb k k'); simpl; [split; discriminate | exact IH].
Qed.

Lemma dict_mem_has_key (k : string) (d : dict) : dict_mem k d = has_key k d.
Proof.
  unfold dict_mem. destruct (dict_get k d) eqn:E.
  - destruct (has_key k d) eqn:F; [reflexivity |].
    apply dict_get_none in F. congruence.
  - apply dict_get_none in E. now rewrite E.
Qed.

Lemma has_key_dict_get (k : string) (d : dict) (v : json) :
  dict_get k d = Some v -> has_key k d = true.
Proof.
  intro G. destruct (has_key k d) eqn:E; [reflexivity |].
  apply dict_get_none in E. congruence.
Qed.

Lemma dict_mem_keys (d d' : dict) :
  map fst d' = map fst d -> forall k, dict_mem k d' = dict_mem k d.
Proof.
  intros K k. rewrite !dict_mem_has_key. unfold has_key. now rewrite K.
Qed.

Lemma nodupb_middle (done rest : dict) (k : string) (v : json) :
  nodupb (map fst (done ++ (k, v) :: rest)) = true -> has_key k done = false.
Proof.
  unfold has_key. induction done as [|[k0 v0] done IH]; simpl; [reflexivity |].
  intro H. apply andb_true_iff in H as [H1 H2].
  rewrite (IH H2), orb_false_r.
  apply negb_true_iff in H1.
  destruct (String.eqb k k0) eqn:E; [| reflexivity].
  apply String.eqb_eq in E. subst k0.
  rewrite map_app, existsb_app in H1. simpl in H1.
  rewrite String.eqb_refl, orb_true_r in H1. discriminate.
Qed.

Lemma dict_set_middle (done rest : dict) (k : string) (v0 v : json) :
  has_key k done = false ->
  dict_set k v (done ++ (k, v0) :: rest) = done ++ (k, v) :: rest.
Proof.
  unfold has_key. induction done as [|[k0 w] done IH]; simpl.
  - now rewrite String.eqb_refl.
  - intro H. apply orb_false_iff in H as [H1 H2].
    rewrite H1, (IH H2). reflexivity.
Qed.

Lemma dict_get_set_same (k : string) (v : json) (d : dict) :
  dict_get k (dict_set k v d) = Some v.
Proof.
  induction d as [|[k' v'] d IH]; simpl.
  - now rewrite String.eqb_refl.
  - destruct (String.eqb k k') eqn:E; simpl.
    + now rewrite String.eqb_refl.
    + now rewrite E.
Qed.

Lemma dict_get_set_other (k k' : string) (v : json) (d : dict) :
  String.eqb k' k = false -> dict_get k' (dict_set k v d) = dict_get k' d.
Proof.
  intro N. induction d as [|[k0 v0] d IH]; simpl.
  - now rewrite N.
  - destruct (String.eqb k k0) eqn:E; simpl.
    + apply String.eqb_eq in E. subst k0. now rewrite N.
    + now rewrite IH.
Qed.

Lemma keys_dict_set (k : string) (v : json) (d : dict) :
  has_key k d = true -> map fst (dict_set k v d) = map fst d.
Proof.
  unfold has_key. induction d as [|[k0 v0] d IH]; simpl; [discriminate |].
  destruct (String.eqb k k0) eqn:E; simpl.
  - intros _. apply String.eqb_eq in E. now subst.
  - intro H. now rewrite IH.
Qed.

Lemma dict_get_In (k : string) (v : json) (d : dict) :
  dict_get k d = Some v -> In (k, v) d.
Proof.
  induction d as [|[k0 v0] d IH]; simpl; [discriminate |].
  destruct (String.eqb k k0) eqn:E.
  - apply String.eqb_eq in E. intro H. injection H as ->. subst. now left.
  - intro H. right. auto.
Qed.

Lemma In_dict_get (k : string) (v : json) (d : dict) :
  nodupb (map fst d) = true -> In (k, v) d -> dict_get k d = Some v.
Proof.
  induction d as [|[k0 v0] d IH]; simpl; [tauto |].
  intros H [E | I].
  - injection E as -> ->. now rewrite String.eqb_refl.
  - apply andb_true_iff in H as [H1 H2].
    destruct (String.eqb k k0) eqn:E.
    + apply String.eqb_eq in E. subst k0.
      apply negb_true_iff in H1.
      assert (X : existsb (String.eqb k) (map fst d) = true).
      { apply existsb_exists. exists k. split.
        - apply (in_map fst) in I. exact I.
        - apply String.eqb_refl. }
      congruence.
    + auto.
Qed.

Lemma lookup_app (p q : list step) (j : json) :
  lookup (p ++ q) j =
  match lookup p j with Some x => lookup q x | None => None end.
Proof.
  revert j. induction p as [|[k | i] p IH]; intro j; simpl.
  - reflexivity.
  - destruct j; try reflexivity. destruct (dict_get k d); auto.
  - destruct j; try reflexivity. destruct (nth_error l i); auto.
Qed.

Lemma lookup_number (p : list step) (v x : json) :
  is_number v = true -> lookup p v = Some x -> p = [] /\ x = v.
Proof.
  intros N H. destruct p as [|[k | i] p].
  - simpl in H. injection H as <-. auto.
  - destruct v; simpl in *; discriminate.
  - destruct v; simpl in *; discriminate.
Qed.

Lemma wf_json_dict (d : dict) :
  wf_json (JDict d) = true <->
  nodupb (map fst d) = true /\ forall k v, In (k, v) d -> wf_json v = true.
Proof.
  simpl. rewrite andb_true_iff, forallb_forall. split.
  - intros [H1 H2]. split; [assumption |].
    intros k v I. exact (H2 (k, v) I).
  - intros [H1 H2]. split; [assumption |].
    intros [k v] I. exact (H2 k v I).
Qed.

Lemma wf_json_list (l : list json) :
  wf_json (JList l) = true <-> forall x, In x l -> wf_json x = true.
Proof. simpl. apply forallb_forall. Qed.

Lemma wf_json_lookup (p : list step) :
  forall D x, wf_json D = true -> lookup p D = Some x -> wf_json x = true.
Proof.
  induction p as [|[k | i] p IH]; intros D x W H; simpl in H.
  - now injection H as <-.
  - destruct D; try discriminate.
    destruct (dict_get k d) as [v |] eqn:G; [| discriminate].
    apply wf_json_dict in W as [_ W].
    eapply IH; [| exact H]. eapply W, dict_get_In, G.
  - destruct D; try discriminate.
    destruct (nth_error l i) as [v |] eqn:G; [| discriminate].
    eapply IH; [| exact H].
    eapply wf_json_list; [exact W |]. eapply nth_error_In, G.
Qed.

Lemma wf_json_shape (j : json) : wf_json j = wf_shape (shape_of j).
Proof.
  induction j as [| | | | | l IH | d IH] using json_nested_ind; try reflexivity.
  - simpl. induction IH as [| x l Hx _ IHl]; simpl; [reflexivity |].
    now rewrite Hx, IHl.
  - simpl. rewrite map_map. simpl. f_equal.
    induction IH as [| x l Hx _ IHl]; simpl; [reflexivity |].
    now rewrite Hx, IHl.
Qed.

Lemma is_number_as_number (v : json) :
  is_number v = true <-> exists n, as_number v = Some n.
Proof.
  unfold is_number. destruct (as_number v) as [n |]; split; eauto.
  - discriminate.
  - intros [n H]. discriminate.
Qed.

(** ** The generic scaler as a map over entries

    On a dict without repeated keys, assigning to the key under iteration
    rewrites that entry where it stands, so the loops of
    [scale_destinations] come to a map over the entries. *)

Section generic_scaler.
Variable scale : pynum.

Lemma dict_loop_mapM (recur : json -> result json) (items : dict) :
  forall done : dict,
    nodupb (map fst (done ++ items)) = true ->
    dict_loop scale recur items (done ++ items) =
    (items' <- mapM (scale_entry scale recur) items ;; Ok (done ++ items')).
Proof.
  induction items as [|[key value] rest IH]; intros done H; simpl.
  - now rewrite app_nil_r.
  - pose proof (nodupb_middle _ _ _ _ H) as Hk.
    assert (Hstep : forall v' : json,
               dict_loop scale recur rest (dict_set key v' (done ++ (key, value) :: rest)) =
               (items' <- mapM (scale_entry scale recur) rest ;;
                Ok (done ++ (key, v') :: items'))).
    { intro v'. rewrite dict_set_middle by assumption.
      replace (done ++ (key, v') :: rest) with ((done ++ [(key, v')]) ++ rest)
        by (now rewrite <- app_assoc).
      rewrite IH.
      - destruct (mapM (scale_entry scale recur) rest); simpl; [| reflexivity].
        now rewrite <- app_assoc.
      - rewrite <- app_assoc. simpl.
        rewrite map_app in *. exact H. }
    destruct (is_number value && key_matches key).
    + destruct (scaled value scale) as [v' | e]; simpl; [| reflexivity].
      rewrite Hstep. destruct (mapM (scale_entry scale recur) rest); reflexivity.
    + destruct (recur value) as [v' | e]; simpl; [| reflexivity].
      rewrite Hstep. destruct (mapM (scale_entry scale recur) rest); reflexivity.
Qed.

Lemma list_setitem_middle (done rest : list json) (x x' : json) :
  list_setitem (List.length done) x' (done ++ x :: rest) = Ok (done ++ x' :: rest).
Proof.
  induction done as [|y done IH]; simpl; [reflexivity |].
  now rewrite IH.
Qed.

Lemma list_loop_mapM (recur : json -> result json) (elems : list json) :
  forall done : list json,
    list_loop recur elems (List.length done) (done ++ elems) =
    (elems' <- mapM recur elems ;; Ok (done ++ elems')).
Proof.
  induction elems as [|x rest IH]; intro done; simpl.
  - now rewrite app_nil_r.
  - destruct (recur x) as [x' | e]; simpl; [| reflexivity].
    rewrite list_setitem_middle. simpl.
    replace (done ++ x' :: rest) with ((done ++ [x']) ++ rest)
      by (now rewrite <- app_assoc).
    replace (S (List.length done)) with (List.length (done ++ [x']))
      by (rewrite List.length_app; simpl; lia).
    rewrite IH.
    destruct (mapM recur rest); simpl; [| reflexivity].
    now rewrite <- app_assoc.
Qed.

Lemma scale_destinations_dict (d : dict) :
  nodupb (map fst d) = true ->
  scale_destinations scale (JDict d) =
  (d' <- mapM (scale_entry scale (scale_destinations scale)) d ;; Ok (JDict d')).
Proof.
  intro H.
  change (scale_destinations scale (JDict d))
    with (d' <- dict_loop scale (scale_destinations scale) d d ;; Ok (JDict d')).
  rewrite (dict_loop_mapM _ d [] H).
  destruct (mapM _ d); reflexivity.
Qed.

Lemma scale_destinations_list (l : list json) :
  scale_destinations scale (JList l) =
  (l' <- mapM (scale_destinations scale) l ;; Ok (JList l')).
Proof.
  change (scale_destinations scale (JList l))
    with (l' <- list_loop (scale_destinations scale) l 0 l ;; Ok (JList l')).
  rewrite (list_loop_mapM _ l []).
  destruct (mapM _ l); reflexivity.
Qed.

End generic_scaler.

Section generic_scaler_facts.
Variable scale : pynum.

Abbreviation entry_rel :=
  (fun kv kv' => scale_entry scale (scale_destinations scale) kv = Ok kv').

Lemma scale_entry_key (recur : json -> result json) (k k' : string) (v v' : json) :
  scale_entry scale recur (k, v) = Ok (k', v') -> k' = k.
Proof.
  simpl. destruct (is_number v && key_matches k); intro H;
    bind_inv H; now injection H as <- _.
Qed.

Lemma entries_get (d d' : dict) (k : string) (v : json) :
  Forall2 entry_rel d d' ->
  dict_get k d = Some v ->
  exists v', dict_get k d' = Some v' /\
             scale_entry scale (scale_destinations scale) (k, v) = Ok (k, v').
Proof.
  induction 1 as [|[k0 v0] [k0' v0'] d d' H _ IH]; simpl; [discriminate |].
  pose proof (scale_entry_key _ _ _ _ _ H) as ->.
  destruct (String.eqb k k0) eqn:E.
  - apply String.eqb_eq in E. subst k0.
    intro G. injection G as <-. eauto.
  - exact IH.
Qed.

Lemma elements_nth (l l' : list json) (i : nat) (x : json) :
  Forall2 (fun a b => scale_destinations scale a = Ok b) l l' ->
  nth_error l i = Some x ->
  exists x', nth_error l' i = Some x' /\ scale_destinations scale x = Ok x'.
Proof.
  intro H. revert i. induction H as [|a b l l' H _ IH]; intros [|i]; simpl;
    try discriminate.
  - intro G. injection G as <-. eauto.
  - apply IH.
Qed.

Lemma scale_destinations_dict_inv (d : dict) (D' : json) :
  wf_json (JDict d) = true ->
  scale_destinations scale (JDict d) = Ok D' ->
  exists d', D' = JDict d' /\ Forall2 entry_rel d d'.
Proof.
  intros W H. apply wf_json_dict in W as [N _].
  rewrite scale_destinations_dict in H by assumption.
  bind_inv H. injection H as <-.
  exists a. split; [reflexivity |]. now apply mapM_Forall2.
Qed.

Lemma scale_destinations_list_inv (l : list json) (D' : json) :
  scale_destinations scale (JList l) = Ok D' ->
  exists l', D' = JList l' /\
             Forall2 (fun a b => scale_destinations scale a = Ok b) l l'.
Proof.
  intro H. rewrite scale_destinations_list in H.
  bind_inv H. injection H as <-.
  exists a. split; [reflexivity |]. now apply mapM_Forall2.
Qed.

(** Below a path that does not end on a number, the output holds the
    scaled image of what the input holds. *)
Lemma lookup_scale_destinations (p : list step) :
  forall D D' x,
    wf_json D = true ->
    scale_destinations scale D = Ok D' ->
    lookup p D = Some x ->
    is_number x = false ->
    exists x', lookup p D' = Some x' /\ scale_destinations scale x = Ok x'.
Proof.
  induction p as [|[k | i] p IH]; intros D D' x W S L N; simpl in L.
  - injection L as <-. exists D'. split; [reflexivity | assumption].
  - destruct D; try discriminate.
    destruct (dict_get k d) as [v |] eqn:G; [| discriminate].
    destruct (scale_destinations_dict_inv _ _ W S) as (d' & -> & F).
    destruct (entries_get _ _ _ _ F G) as (v' & G' & E).
    simpl. rewrite G'. simpl in E.
    destruct (is_number v && key_matches k) eqn:T.
    + apply andb_true_iff in T as [T _].
      destruct (lookup_number _ _ _ T L) as [_ ->]. congruence.
    + bind_inv E. injection E as <-.
      assert (Wv : wf_json v = true)
        by (apply wf_json_dict in W as [_ W]; eapply W, dict_get_In, G).
      exact (IH _ _ _ Wv Ha L N).
  - destruct D; try discriminate.
    destruct (nth_error l i) as [v |] eqn:G; [| discriminate].
    destruct (scale_destinations_list_inv _ _ S) as (l' & -> & F).
    destruct (elements_nth _ _ _ _ F G) as (v' & G' & E).
    simpl. rewrite G'.
    assert (Wv : wf_json v = true)
      by (eapply wf_json_list; [exact W |]; eapply nth_error_In, G).
    exact (IH _ _ _ Wv E L N).
Qed.

End generic_scaler_facts.

(** ** Targets of the generic scaler *)

Lemma targeted_under_key (d : dict) (k : string) (v : json)
      (p : list step) (key : string) (n : pynum) :
  dict_get k d = Some v ->
  targeted v p key n -> targeted (JDict d) (Key k :: p) key n.
Proof.
  intros G (d0 & value & L & H). exists d0, value.
  simpl. rewrite G. split; assumption.
Qed.

Lemma targeted_under_index (l : list json) (i : nat) (v : json)
      (p : list step) (key : string) (n : pynum) :
  nth_error l i = Some v ->
  targeted v p key n -> targeted (JList l) (Index i :: p) key n.
Proof.
  intros G (d0 & value & L & H). exists d0, value.
  simpl. rewrite G. split; assumption.
Qed.

Lemma scaled_defined (value : json) (n : pynum) (scale : pynum) :
  as_number value = Some n ->
  scaled value scale = (r <- py_mul n scale ;; Ok (json_of_num r)).
Proof. unfold scaled. now intros ->. Qed.

(** The run goes through as soon as every targeted product is defined. *)
Lemma scale_destinations_total (scale : pynum) (D : json) :
  wf_json D = true ->
  (forall p key n, targeted D p key n -> exists r, py_mul n scale = Ok r) ->
  exists D', scale_destinations scale D = Ok D'.
Proof.
  induction D as [| | | | | l IH | d IH] using json_nested_ind;
    intros W T; try (eexists; reflexivity).
  - rewrite scale_destinations_list.
    destruct (mapM_total (scale_destinations scale) l) as [l' ->];
      [| eexists; reflexivity].
    rewrite Forall_forall in *. intros x I.
    destruct (In_nth_error _ _ I) as [i G].
    apply IH; [assumption | eapply wf_json_list; eassumption |].
    intros p key n Hn. apply (T (Index i :: p) key n).
    now apply targeted_under_index with (v := x).
  - pose proof W as W0. apply wf_json_dict in W as [N W].
    rewrite scale_destinations_dict by assumption.
    destruct (mapM_total (scale_entry scale (scale_destinations scale)) d)
      as [d' ->]; [| eexists; reflexivity].
    rewrite Forall_forall in *. intros [k v] I.
    pose proof (In_dict_get _ _ _ N I) as G.
    simpl. destruct (is_number v && key_matches k) eqn:E.
    + apply andb_true_iff in E as [E1 E2].
      apply is_number_as_number in E1 as [n E1].
      destruct (T [] k n) as [r Hr].
      { exists d, v. simpl. auto. }
      rewrite (scaled_defined _ _ _ E1), Hr. simpl. eauto.
    + assert (Hv : exists v', scale_destinations scale v = Ok v').
      { apply (IH (k, v) I).
        - eapply W; eassumption.
        - intros p key n Hn. apply (T (Key k :: p) key n).
          now apply targeted_under_key with (v := v). }
      destruct Hv as [v' ->]. simpl. eauto.
Qed.

(** What the output holds at a targeted entry. *)
Lemma scale_destinations_target (scale : pynum) (D D' : json)
      (p : list step) (key : string) (n : pynum) :
  wf_json D = true ->
  scale_destinations scale D = Ok D' ->
  targeted D p key n ->
  exists r, py_mul n scale = Ok r /\
            lookup (p ++ [Key key]) D' = Some (json_of_num r).
Proof.
  intros W S (d & value & L & G & M & N).
  destruct (lookup_scale_destinations scale p D D' (JDict d) W S L eq_refl)
    as (x' & L' & S').
  pose proof (wf_json_lookup _ _ _ W L) as Wd.
  destruct (scale_destinations_dict_inv _ _ _ Wd S') as (d' & -> & F).
  destruct (entries_get _ _ _ _ _ F G) as (v' & G' & E).
  simpl in E.
  assert (Hn : is_number value = true)
    by (apply is_number_as_number; eauto).
  rewrite Hn, M in E. simpl in E.
  rewrite (scaled_defined _ _ _ N) in E.
  bind_inv E. bind_inv Ha. injection Ha as <-. injection E as <-.
  exists a0. split; [assumption |].
  rewrite lookup_app, L'. simpl. now rewrite G'.
Qed.

Lemma scale_destinations_no_target (scale : pynum) (D : json) :
  wf_json D = true -> has_target D = false -> scale_destinations scale D = Ok D.
Proof.
  induction D as [| | | | | l IH | d IH] using json_nested_ind;
    intros W T; try reflexivity.
  - rewrite scale_destinations_list, mapM_id; [reflexivity |].
    rewrite Forall_forall in *. intros x I. apply IH; [assumption | |].
    + eapply wf_json_list; eassumption.
    + simpl in T. destruct (has_target x) eqn:E; [| reflexivity].
      rewrite <- T. symmetry. apply existsb_exists. eauto.
  - apply wf_json_dict in W as [N W].
    rewrite scale_destinations_dict by assumption.
    rewrite mapM_id; [reflexivity |].
    rewrite Forall_forall in *. intros [k v] I.
    assert (E : (is_number v && key_matches k) || has_target v = false).
    { simpl in T.
      destruct ((is_number v && key_matches k) || has_target v) eqn:E;
        [| reflexivity].
      rewrite <- T. symmetry. apply existsb_exists. exists (k, v). auto. }
    apply orb_false_iff in E as [E1 E2].
    pose proof (IH (k, v) I (W k v I) E2) as Hv. simpl in Hv.
    simpl. now rewrite E1, Hv.
Qed.

Lemma scale_destinations_leaf (scale : pynum) (v : json) :
  is_container v = false -> scale_destinations scale v = Ok v.
Proof. destruct v; simpl; intro H; try reflexivity; discriminate. Qed.

Lemma scale_destinations_shape (scale : pynum) (D : json) :
  forall D',
    wf_json D = true ->
    scale_destinations scale D = Ok D' -> shape_of D' = shape_of D.
Proof.
  induction D as [| | | | | l IH | d IH] using json_nested_ind;
    intros D' W S; try (injection S as <-; reflexivity).
  - destruct (scale_destinations_list_inv _ _ _ S) as (l' & -> & F).
    simpl. f_equal.
    assert (Wl : forall x, In x l -> wf_json x = true)
      by (now apply wf_json_list).
    clear S W. induction F as [|a b l l' H F IHF]; simpl; [reflexivity |].
    inversion IH as [|? ? IHa IHl]; subst.
    rewrite (IHa b (Wl a (or_introl eq_refl)) H). f_equal.
    apply IHF; [assumption |]. intros x I. apply Wl. now right.
  - destruct (scale_destinations_dict_inv _ _ _ W S) as (d' & -> & F).
    simpl. f_equal.
    apply wf_json_dict in W as [_ Wd].
    clear S. induction F as [|[k v] [k' v'] d d' H F IHF]; simpl; [reflexivity |].
    inversion IH as [|? ? IHa IHl]; subst. simpl in IHa.
    pose proof (scale_entry_key _ _ _ _ _ _ H) as ->.
    assert (Hs : shape_of v' = shape_of v).
    { simpl in H. destruct (is_number v && key_matches k) eqn:E.
      - apply andb_true_iff in E as [E _].
        apply is_number_as_number in E as [n E].
        rewrite (scaled_defined _ _ _ E) in H.
        bind_inv H. bind_inv Ha. injection Ha as <-. injection H as <-.
        destruct v; try discriminate; destruct a0; reflexivity.
      - bind_inv H. injection H as <-.
        apply IHa; [| assumption]. apply (Wd k v). now left. }
    rewrite Hs. f_equal.
    apply IHF; [assumption |]. intros k0 v0 I. apply (Wd k0 v0). now right.
Qed.

(** Leaves that are not targets come out as they went in. *)
Lemma scale_destinations_other_leaves (scale : pynum) (p : list step) :
  forall D D' v,
    wf_json D = true ->
    scale_destinations scale D = Ok D' ->
    lookup p D = Some v ->
    is_container v = false ->
    is_number v && ends_on_matching_key p = false ->
    lookup p D' = Some v.
Proof.
  induction p as [|[k | i] p IH]; intros D D' v W S L C T; simpl in L.
  - injection L as <-. rewrite (scale_destinations_leaf _ _ C) in S.
    now injection S as <-.
  - destruct D; try discriminate.
    destruct (dict_get k d) as [x |] eqn:G; [| discriminate].
    destruct (scale_destinations_dict_inv _ _ _ W S) as (d' & -> & F).
    destruct (entries_get _ _ _ _ _ F G) as (x' & G' & E).
    simpl. rewrite G'. simpl in E.
    assert (Wx : wf_json x = true)
      by (apply wf_json_dict in W as [_ W]; eapply W, dict_get_In, G).
    destruct (is_number x && key_matches k) eqn:M.
    + apply andb_true_iff in M as [M1 M2].
      destruct (lookup_number _ _ _ M1 L) as [Hp Hv]. subst p v.
      unfold ends_on_matching_key in T. simpl in T.
      rewrite M1, M2 in T. discriminate.
    + bind_inv E. injection E as <-.
      apply (IH x a v Wx Ha L C).
      destruct p as [| s p]; [| exact T].
      unfold ends_on_matching_key. simpl. apply andb_false_r.
  - destruct D; try discriminate.
    destruct (nth_error l i) as [x |] eqn:G; [| discriminate].
    destruct (scale_destinations_list_inv _ _ _ S) as (l' & -> & F).
    destruct (elements_nth _ _ _ _ _ F G) as (x' & G' & E).
    simpl. rewrite G'.
    assert (Wx : wf_json x = true)
      by (eapply wf_json_list; [exact W |]; eapply nth_error_In, G).
    apply (IH x x' v Wx E L C).
    destruct p as [| s p]; [| exact T].
    unfold ends_on_matching_key. simpl. apply andb_false_r.
Qed.

Lemma scale_destinations_wf (scale : pynum) (D D' : json) :
  wf_json D = true -> scale_destinations scale D = Ok D' -> wf_json D' = true.
Proof.
  intros W S. rewrite wf_json_shape.
  rewrite (scale_destinations_shape scale D D' W S).
  now rewrite <- wf_json_shape.
Qed.

Lemma scale_destinations_is_number (scale : pynum) (D D' : json) :
  scale_destinations scale D = Ok D' -> is_number D' = is_number D.
Proof.
  destruct D; simpl; intro H; try (now injection H as <-);
    bind_inv H; now injection H as <-.
Qed.

(** ** Scaling twice, scaling by one *)

(** Two passes at [0.5] come to one pass at [0.25]. *)
Lemma scale_half_twice (D : json) :
  forall D1,
    wf_json D = true ->
    scale_destinations (PFloat half) D = Ok D1 ->
    exists D2,
      scale_destinations (PFloat half) D1 = Ok D2 /\
      scale_destinations (PFloat quarter) D = Ok D2.
Proof.
  induction D as [| | | | | l IH | d IH] using json_nested_ind;
    intros D1 W S; try (injection S as <-; eexists; split; reflexivity).
  - destruct (scale_destinations_list_inv _ _ _ S) as (l1 & -> & F).
    rewrite !scale_destinations_list.
    destruct (mapM_pair _ (scale_destinations (PFloat half))
                        (scale_destinations (PFloat quarter)) l l1 F)
      as (l2 & -> & ->); [| eexists; split; reflexivity].
    intros a b I Hab. rewrite Forall_forall in IH.
    apply (IH a I b); [| assumption].
    eapply wf_json_list; eassumption.
  - pose proof (scale_destinations_wf _ _ _ W S) as W1.
    destruct (scale_destinations_dict_inv _ _ _ W S) as (d1 & -> & F).
    apply wf_json_dict in W as [N Wd].
    apply wf_json_dict in W1 as [N1 _].
    rewrite !scale_destinations_dict by assumption.
    destruct (mapM_pair _ (scale_entry (PFloat half) (scale_destinations (PFloat half)))
                        (scale_entry (PFloat quarter) (scale_destinations (PFloat quarter)))
                        d d1 F)
      as (d2 & -> & ->); [| eexists; split; reflexivity].
    intros [k v] [k1 v1] I E. rewrite Forall_forall in IH.
    pose proof (scale_entry_key _ _ _ _ _ _ E) as ->.
    simpl in E |- *.
    destruct (is_number v && key_matches k) eqn:T.
    + apply andb_true_iff in T as [T1 T2].
      apply is_number_as_number in T1 as [n T1].
      rewrite (scaled_defined v n (PFloat half) T1), py_mul_float in E.
      rewrite (scaled_defined v n (PFloat quarter) T1), py_mul_float.
      bind_inv E. injection E as <-.
      bind_inv Ha. bind_inv Ha0. injection Ha0 as <-. injection Ha as <-.
      rewrite Ha1. simpl. rewrite T2. simpl.
      rewrite mul_half_half. eexists. split; reflexivity.
    + bind_inv E. injection E as <-.
      destruct (IH (k, v) I a (Wd k v I) Ha) as (v2 & H2 & Q2).
      rewrite (scale_destinations_is_number _ _ _ Ha), T.
      simpl in Q2. rewrite H2, Q2. simpl. eexists. split; reflexivity.
Qed.

Lemma scaled_by_one (v : json) :
  is_number v = true ->
  match v with JBool _ => false | _ => true end = true ->
  scaled v (PInt 1) = Ok v.
Proof.
  destruct v; try discriminate; intros _ _.
  - unfold scaled. simpl. now rewrite Z.mul_1_r.
  - unfold scaled. cbn [as_number py_mul to_float bind].
    change (float_of_int 1) with (Ok 1%float). cbn [bind json_of_num].
    now rewrite mul_one.
Qed.

(** With the int factor 1 nothing changes, booleans at targets apart. *)
Lemma scale_by_one_noop (D : json) :
  wf_json D = true ->
  has_bool_target D = false ->
  scale_destinations (PInt 1) D = Ok D.
Proof.
  induction D as [| | | | | l IH | d IH] using json_nested_ind;
    intros W T; try reflexivity.
  - rewrite scale_destinations_list, mapM_id; [reflexivity |].
    rewrite Forall_forall in *. intros x I. apply IH; [assumption | |].
    + eapply wf_json_list; eassumption.
    + simpl in T. destruct (has_bool_target x) eqn:E; [| reflexivity].
      rewrite <- T. symmetry. apply existsb_exists. eauto.
  - apply wf_json_dict in W as [N W].
    rewrite scale_destinations_dict by assumption.
    rewrite mapM_id; [reflexivity |].
    rewrite Forall_forall in *. intros [k v] I.
    assert (E : (match v with JBool _ => true | _ => false end && key_matches k)
                || has_bool_target v = false).
    { simpl in T.
      destruct ((match v with JBool _ => true | _ => false end && key_matches k)
                || has_bool_target v) eqn:E; [| reflexivity].
      rewrite <- T. symmetry. apply existsb_exists. exists (k, v). auto. }
    apply orb_false_iff in E as [E1 E2].
    simpl. destruct (is_number v && key_matches k) eqn:M.
    + apply andb_true_iff in M as [M1 M2]. rewrite M2, andb_true_r in E1.
      rewrite scaled_by_one; [reflexivity | assumption |].
      now destruct v.
    + pose proof (IH (k, v) I (W k v I) E2) as Hv. simpl in Hv.
      now rewrite Hv.
Qed.

Lemma scaled_by_float_one (x : float) :
  scaled (JFloat x) (PFloat 1) = Ok (JFloat x).
Proof. unfold scaled. simpl. now rewrite mul_one. Qed.

(** With the float factor 1.0 nothing changes where every target is a
    float already. *)
Lemma scale_by_float_one_noop (D : json) :
  wf_json D = true ->
  has_int_target D = false ->
  scale_destinations (PFloat 1) D = Ok D.
Proof.
  induction D as [| | | | | l IH | d IH] using json_nested_ind;
    intros W T; try reflexivity.
  - rewrite scale_destinations_list, mapM_id; [reflexivity |].
    rewrite Forall_forall in *. intros x I. apply IH; [assumption | |].
    + eapply wf_json_list; eassumption.
    + simpl in T. destruct (has_int_target x) eqn:E; [| reflexivity].
      rewrite <- T. symmetry. apply existsb_exists. eauto.
  - apply wf_json_dict in W as [N W].
    rewrite scale_destinations_dict by assumption.
    rewrite mapM_id; [reflexivity |].
    rewrite Forall_forall in *. intros [k v] I.
    assert (E : (match v with JInt _ | JBool _ => true | _ => false end
                 && key_matches k)
                || has_int_target v = false).
    { simpl in T.
      destruct ((match v with JInt _ | JBool _ => true | _ => false end
                 && key_matches k)
                || has_int_target v) eqn:E; [| reflexivity].
      rewrite <- T. symmetry. apply existsb_exists. exists (k, v). auto. }
    apply orb_false_iff in E as [E1 E2].
    simpl. destruct (is_number v && key_matches k) eqn:M.
    + apply andb_true_iff in M as [M1 M2]. rewrite M2, andb_true_r in E1.
      destruct v; try discriminate.
      now rewrite scaled_by_float_one.
    + pose proof (IH (k, v) I (W k v I) E2) as Hv. simpl in Hv.
      now rewrite Hv.
Qed.

(** ** The frame scaler *)

Lemma for_keys_update_all (factor : pynum) (ks : list string) (a : json) :
  for_keys factor ks a = update_all ks (fun v => scale_value v factor) a.
Proof.
  revert a. induction ks as [|k ks IH]; intro a; simpl; [reflexivity |].
  change (scale_key factor k a) with (update_at k (fun v => scale_value v factor) a).
  destruct (update_at k _ a); simpl; auto.
Qed.

Lemma scale_dict_update_all (factor : pynum) (a : json) :
  scale_dict a factor = update_all coords (fun v => scale_value v factor) a.
Proof. apply for_keys_update_all. Qed.

Lemma scale_frame_update_all (frame : json) :
  scale_frame frame = update_all subs (fun s => scale_dict s scale_factor) frame.
Proof.
  unfold scale_frame, subs. simpl.
  change scale_sub with (fun name => update_at name (fun s => scale_dict s scale_factor)).
  cbv beta.
  destruct (update_at "frame" _ frame) as [f1 |]; simpl; [| reflexivity].
  destruct (update_at "spriteSourceSize" _ f1) as [f2 |]; simpl; [| reflexivity].
  now rewrite bind_ret.
Qed.

Lemma update_at_inv (name : string) (f : json -> result json) (a b : json) :
  update_at name f a = Ok b ->
  (b = a /\ py_in name a = Ok false) \/
  (exists d old new,
      a = JDict d /\ dict_get name d = Some old /\ f old = Ok new /\
      b = JDict (dict_set name new d)).
Proof.
  unfold update_at. intro H. bind_inv H. destruct a0.
  - bind_inv H. bind_inv H. right.
    destruct a; simpl in Ha0; try discriminate.
    destruct (dict_get name d) as [old |] eqn:G; [| discriminate].
    injection Ha0 as <-. simpl in H. injection H as <-.
    exists d, old, a1. auto.
  - injection H as <-. now left.
Qed.

(** Updating along a list of distinct names, seen from the dict. *)
Lemma update_all_dict (f : json -> result json) (names : list string) :
  forall (d : dict) (b : json),
    NoDup names ->
    update_all names f (JDict d) = Ok b ->
    exists d',
      b = JDict d' /\
      map fst d' = map fst d /\
      (forall n old, In n names -> dict_get n d = Some old ->
                     exists new, f old = Ok new /\ dict_get n d' = Some new) /\
      (forall n, ~ In n names -> dict_get n d' = dict_get n d).
Proof.
  induction names as [|n names IH]; intros d b ND H; simpl in H.
  - injection H as <-. exists d. repeat split; auto. intros n old [].
  - bind_inv H. inversion ND as [|? ? Hn ND']; subst.
    apply update_at_inv in Ha as [[-> P] | (d0 & old & new & E & G & F & ->)].
    + destruct (IH d b ND' H) as (d' & -> & K & U & O).
      exists d'. repeat split; auto.
      * intros m old [<- | I] Gm; [| eauto].
        simpl in P. injection P as P. unfold dict_mem in P.
        rewrite Gm in P. discriminate.
      * intros m N. apply O. intro I. apply N. now right.
    + injection E as <-.
      destruct (IH _ b ND' H) as (d' & -> & K & U & O).
      exists d'. repeat split.
      * rewrite K. apply keys_dict_set. eapply has_key_dict_get, G.
      * intros m old0 [<- | I] Gm.
        -- rewrite (O n Hn), dict_get_set_same.
           rewrite G in Gm. injection Gm as <-. eauto.
        -- apply U; [assumption |].
           rewrite dict_get_set_other; [assumption |].
           apply String.eqb_neq. intros ->. contradiction.
      * intros m N. rewrite O by (intro I; apply N; now right).
        apply dict_get_set_other, String.eqb_neq.
        intros ->. apply N. now left.
Qed.

(** A container that is not a dict goes through only when none of the
    names is in it, and then untouched. *)
Lemma update_all_not_dict (f : json -> result json) (names : list string) :
  forall a b,
    (forall d, a <> JDict d) -> update_all names f a = Ok b -> b = a.
Proof.
  induction names as [|n names IH]; intros a b N H; simpl in H.
  - now injection H as <-.
  - bind_inv H.
    apply update_at_inv in Ha as [[-> _] | (d & _ & _ & E & _)].
    + now apply IH.
    + now destruct (N d).
Qed.

Lemma shape_dict_set (name : string) (old new : json) (d : dict) :
  dict_get name d = Some old ->
  shape_of new = shape_of old ->
  shape_of (JDict (dict_set name new d)) = shape_of (JDict d).
Proof.
  intros G S. simpl. f_equal.
  induction d as [|[k v] d IH]; simpl in *; [discriminate |].
  destruct (String.eqb name k) eqn:E; simpl.
  - injection G as ->. apply String.eqb_eq in E. now rewrite S, E.
  - now rewrite IH.
Qed.

Lemma update_at_shape (name : string) (f : json -> result json) :
  keeps_shape f -> keeps_shape (update_at name f).
Proof.
  intros Hf a b H.
  apply update_at_inv in H as [[-> _] | (d & old & new & -> & G & F & ->)];
    [reflexivity |].
  eapply shape_dict_set; eauto.
Qed.

Lemma update_all_shape (names : list string) (f : json -> result json) :
  keeps_shape f -> keeps_shape (update_all names f).
Proof.
  intro Hf. induction names as [|n names IH]; intros a b H; simpl in H.
  - now injection H as <-.
  - bind_inv H. rewrite (IH _ _ H). exact (update_at_shape n f Hf _ _ Ha).
Qed.

Lemma scale_value_int (v : json) (factor : pynum) (v' : json) :
  scale_value v factor = Ok v' ->
  is_number v = true /\ exists z, v' = JInt z.
Proof.
  unfold scale_value, is_number. destruct (as_number v) as [n |]; [| discriminate].
  intro H. bind_inv H. split; [reflexivity |].
  destruct a; [injection H as <- | bind_inv H; injection H as <-]; eauto.
Qed.

Lemma scale_value_shape (factor : pynum) :
  keeps_shape (fun v => scale_value v factor).
Proof.
  intros v v' H. apply scale_value_int in H as (N & z & ->).
  destruct v; try discriminate; reflexivity.
Qed.

Lemma scale_dict_shape (factor : pynum) :
  keeps_shape (fun s => scale_dict s factor).
Proof.
  intros a b H. rewrite scale_dict_update_all in H.
  eapply update_all_shape; [apply scale_value_shape | exact H].
Qed.

Lemma scale_frame_shape : keeps_shape scale_frame.
Proof.
  intros a b H. rewrite scale_frame_update_all in H.
  eapply update_all_shape; [apply scale_dict_shape | exact H].
Qed.

Lemma update_at_leaves (name : string) (e : list step -> bool)
      (f : json -> result json) :
  keeps_leaves e f -> keeps_leaves (at_key name e) (update_at name f).
Proof.
  intros Hf a b q v H L C E.
  apply update_at_inv in H as [[-> _] | (d & old & new & -> & G & F & ->)];
    [assumption |].
  destruct q as [|[k | i] q]; simpl in *.
  - injection L as <-. discriminate.
  - destruct (String.eqb k name) eqn:K.
    + apply String.eqb_eq in K. subst k.
      rewrite dict_get_set_same. rewrite G in L.
      exact (Hf _ _ _ _ F L C E).
    + now rewrite dict_get_set_other.
  - discriminate.
Qed.

Lemma update_all_leaves (names : list string) (e : list step -> bool)
      (f : json -> result json) :
  keeps_leaves e f -> keeps_leaves (at_keys names e) (update_all names f).
Proof.
  intro Hf. induction names as [|n names IH]; intros a b q v H L C E;
    simpl in H.
  - now injection H as <-.
  - bind_inv H. unfold at_keys in E. simpl in E.
    apply orb_false_iff in E as [E1 E2].
    apply (IH _ _ _ _ H); [| assumption | exact E2].
    exact (update_at_leaves n e f Hf _ _ _ _ Ha L C E1).
Qed.

Lemma scale_value_leaves (factor : pynum) :
  keeps_leaves here (fun v => scale_value v factor).
Proof.
  intros a b q v H L C E. apply scale_value_int in H as (N & _).
  destruct (lookup_number _ _ _ N L) as [-> _]. discriminate.
Qed.

Lemma scale_dict_leaves (factor : pynum) :
  keeps_leaves (at_keys coords here) (fun s => scale_dict s factor).
Proof.
  intros a b q v H. rewrite scale_dict_update_all in H. revert H.
  apply (update_all_leaves coords here _ (scale_value_leaves factor)).
Qed.

Lemma scale_frame_leaves :
  keeps_leaves (at_keys subs (at_keys coords here)) scale_frame.
Proof.
  intros a b q v H. rewrite scale_frame_update_all in H. revert H.
  apply (update_all_leaves subs _ _ (scale_dict_leaves scale_factor)).
Qed.

Lemma frames_loop_mapM (items : dict) :
  forall done : dict,
    nodupb (map fst (done ++ items)) = true ->
    frames_loop items (done ++ items) =
    (items' <- mapM scale_frame_entry items ;; Ok (done ++ items')).
Proof.
  induction items as [|[key frame] rest IH]; intros done H; simpl.
  - now rewrite app_nil_r.
  - pose proof (nodupb_middle _ _ _ _ H) as Hk.
    unfold scale_frame_entry at 1. simpl.
    destruct (scale_frame frame) as [frame' | e]; simpl; [| reflexivity].
    rewrite dict_set_middle by assumption.
    replace (done ++ (key, frame') :: rest) with ((done ++ [(key, frame')]) ++ rest)
      by (now rewrite <- app_assoc).
    rewrite IH.
    + destruct (mapM scale_frame_entry rest); simpl; [| reflexivity].
      now rewrite <- app_assoc.
    + rewrite <- app_assoc. simpl. rewrite map_app in *. exact H.
Qed.

Lemma frames_get (frames frames' : dict) (k : string) (frame : json) :
  Forall2 (fun kv kv' => scale_frame_entry kv = Ok kv') frames frames' ->
  dict_get k frames = Some frame ->
  exists frame', dict_get k frames' = Some frame' /\ scale_frame frame = Ok frame'.
Proof.
  induction 1 as [|[k0 v0] [k0' v0'] d d' H _ IH]; simpl; [discriminate |].
  unfold scale_frame_entry in H. simpl in H. bind_inv H. injection H as <- <-.
  destruct (String.eqb k k0) eqn:E.
  - intro G. injection G as <-. eauto.
  - exact IH.
Qed.

Lemma frames_shape (frames frames' : dict) :
  Forall2 (fun kv kv' => scale_frame_entry kv = Ok kv') frames frames' ->
  shape_of (JDict frames') = shape_of (JDict frames).
Proof.
  intro F. simpl. f_equal.
  induction F as [|[k0 v0] [k0' v0'] d d' H _ IH]; simpl; [reflexivity |].
  unfold scale_frame_entry in H. simpl in H. bind_inv H. injection H as <- <-.
  now rewrite (scale_frame_shape _ _ Ha), IH.
Qed.

(** What [scale_frames] does to a document that has its frames. *)
Lemma scale_frames_inv (D D' : json) :
  wf_json D = true ->
  scale_frames D = Ok D' ->
  exists d,
    D = JDict d /\
    ((dict_get "frames" d = None /\ D' = D) \/
     (exists frames frames',
         dict_get "frames" d = Some (JDict frames) /\
         Forall2 (fun kv kv' => scale_frame_entry kv = Ok kv') frames frames' /\
         D' = JDict (dict_set "frames" (JDict frames') d))).
Proof.
  intros W H. destruct D; try discriminate. exists d. split; [reflexivity |].
  simpl in H. destruct (dict_get "frames" d) as [fs |] eqn:G.
  - right. destruct fs; try discriminate. rename d0 into frames.
    bind_inv H. injection H as <-. exists frames, a. repeat split.
    assert (Wf : wf_json (JDict frames) = true)
      by (apply wf_json_dict in W as [_ W]; eapply W, dict_get_In, G).
    apply wf_json_dict in Wf as [N _].
    pose proof (frames_loop_mapM frames [] N) as R. simpl in R.
    rewrite R in Ha. bind_inv Ha. injection Ha as <-. now apply mapM_Forall2.
  - left. injection H as <-. auto.
Qed.

Lemma scale_frames_shape (D D' : json) :
  wf_json D = true -> scale_frames D = Ok D' -> shape_of D' = shape_of D.
Proof.
  intros W H.
  destruct (scale_frames_inv _ _ W H)
    as (d & -> & [[_ ->] | (frames & frames' & G & F & ->)]); [reflexivity |].
  eapply shape_dict_set; [exact G |]. now apply frames_shape.
Qed.

Lemma scale_frames_other_leaves (D D' : json) (p : list step) (v : json) :
  wf_json D = true ->
  scale_frames D = Ok D' ->
  lookup p D = Some v ->
  is_container v = false ->
  frame_target p = false ->
  lookup p D' = Some v.
Proof.
  intros W H L C T.
  destruct (scale_frames_inv _ _ W H)
    as (d & -> & [[_ ->] | (frames & frames' & G & F & ->)]); [assumption |].
  destruct p as [|[k | i] p]; simpl in L |- *; try discriminate.
  - injection L as <-. discriminate.
  - destruct (String.eqb k "frames") eqn:K.
    + apply String.eqb_eq in K. subst k.
      rewrite dict_get_set_same. rewrite G in L.
      destruct p as [|[fk | i] p]; simpl in L |- *; try discriminate.
      * injection L as <-. discriminate.
      * destruct (dict_get fk frames) as [frame |] eqn:Gf; [| discriminate].
        destruct (frames_get _ _ _ _ F Gf) as (frame' & -> & S).
        exact (scale_frame_leaves _ _ _ _ S L C T).
    + now rewrite dict_get_set_other.
Qed.

Lemma NoDup_coords : NoDup coords.
Proof.
  unfold coords. repeat constructor; simpl; intuition discriminate.
Qed.

Lemma NoDup_subs : NoDup subs.
Proof.
  unfold subs. repeat constructor; simpl; intuition discriminate.
Qed.

(** What the frames loop does to one frame entry and its sub-objects. *)
Lemma frame_entry_scaled (D D' : json) (fk : string) (fr : dict) :
  wf_json D = true ->
  scale_frames D = Ok D' ->
  lookup [Key "frames"; Key fk] D = Some (JDict fr) ->
  exists fr',
    lookup [Key "frames"; Key fk] D' = Some (JDict fr') /\
    map fst fr' = map fst fr /\
    (forall name, ~ In name subs -> dict_get name fr' = dict_get name fr) /\
    (forall name s,
        In name subs ->
        dict_get name fr = Some (JDict s) ->
        exists s',
          dict_get name fr' = Some (JDict s') /\
          map fst s' = map fst s /\
          (forall c, ~ In c coords -> dict_get c s' = dict_get c s) /\
          (forall c v,
              In c coords ->
              dict_get c s = Some v ->
              exists v', scale_value v scale_factor = Ok v' /\
                         dict_get c s' = Some v')).
Proof.
  intros W H L.
  destruct (scale_frames_inv _ _ W H)
    as (d & -> & [[G ->] | (frames & frames' & G & F & ->)]);
    simpl in L; rewrite G in L; [discriminate |].
  destruct (dict_get fk frames) as [frame |] eqn:Gf; [| discriminate].
  injection L as ->.
  destruct (frames_get _ _ _ _ F Gf) as (frame' & Gf' & S).
  rewrite scale_frame_update_all in S.
  destruct (update_all_dict _ _ _ _ NoDup_subs S) as (fr' & -> & K & U & O).
  exists fr'. simpl. rewrite dict_get_set_same, Gf'.
  repeat split; try assumption.
  intros name s I Gs.
  destruct (U name (JDict s) I Gs) as (new & Sd & Gn).
  rewrite scale_dict_update_all in Sd.
  destruct (update_all_dict _ _ _ _ NoDup_coords Sd) as (s' & -> & Ks & Us & Os).
  exists s'. repeat split; assumption.
Qed.

(** [scale_value] on an int of magnitude below [2^53], under the script's
    factor: half the int, rounded to the nearest integer, ties to even. *)
Lemma scale_value_signed (s : bool) (m : positive) :
  Zpos m < 2 ^ 53 ->
  scale_value (JInt (cond_Zopp s (Zpos m))) (PFloat half)
  = Ok (JInt (cond_Zopp s (rne1 (Zpos m)))).
Proof.
  intro U. pose proof (digits2_pos_le m 53 U) as D.
  destruct (binary_round_small s m U) as (mz & R & Dz & V).
  unfold scale_value. cbn [as_number py_mul to_float].
  unfold float_of_int. rewrite float_of_int_signed, R.
  cbn [bind]. unfold py_round.
  rewrite mul_spec, Prim2SF_SF2Prim.
  - change (Prim2SF half) with (sf_pow2 1).
    rewrite SFmul_pow2_exact.
    + cbn [bind]. now rewrite (round_half_even_half m mz D V).
    + rewrite Dz. unfold fexp, SpecFloat.emin, prec, emax. lia.
    + lia.
  - unfold valid_binary, bounded, canonical_mantissa.
    apply andb_true_iff. split.
    + apply Z.eqb_eq. rewrite Dz.
      unfold fexp, SpecFloat.emin, prec, emax. lia.
    + apply Z.leb_le. unfold prec, emax. lia.
Qed.

Lemma scale_value_small_int (n : Z) :
  - 2 ^ 53 < n < 2 ^ 53 ->
  exists r,
    scale_value (JInt n) (PFloat half) = Ok (JInt r) /\
    (Z.even n = true -> 2 * r = n) /\
    (Z.even n = false -> Z.even r = true /\ (2 * r = n - 1 \/ 2 * r = n + 1)).
Proof.
  intros [L U]. destruct n as [| m | m].
  - exists 0. split; [vm_compute; reflexivity |].
    split; [reflexivity | discriminate].
  - exists (rne1 (Zpos m)). split.
    + apply (scale_value_signed false m U).
    + apply rne1_spec.
  - exists (- rne1 (Zpos m)). split.
    + apply (scale_value_signed true m). lia.
    + destruct (rne1_spec (Zpos m)) as [E O].
      change (Z.even (Zneg m)) with (Z.even (Zpos m)).
      rewrite Z.even_opp. split.
      * intro H. specialize (E H). lia.
      * intro H. destruct (O H) as [Hr Hv]. split; [assumption | lia].
Qed.

(** * The claims *)

(** C1. Generic scaler: in every document, a dict entry at any depth
    (lists included) whose key contains [dest_x] or [dest_y] and whose value
    is a number [n] holds [n * factor] in the output, the plain product with
    no rounding to an integer; under the script's factor that is the binary64
    product of [float(n)] and [0.5].  The run yields an output exactly when
    every such product is defined (an int beyond the binary64 range has no
    float). *)
Theorem scale_destinations_scales_targets (scale : pynum) (D : json) :
  wf_json D = true ->
  ((exists D', scale_destinations scale D = Ok D') <->
   (forall p key n, targeted D p key n -> exists r, py_mul n scale = Ok r))
  /\
  (forall D' p key n,
      scale_destinations scale D = Ok D' ->
      targeted D p key n ->
      exists r, py_mul n scale = Ok r /\
                lookup (p ++ [Key key]) D' = Some (json_of_num r))
  /\
  (forall D' p key n,
      scale = PFloat half ->
      scale_destinations scale D = Ok D' ->
      targeted D p key n ->
      exists x, to_float n = Ok x /\
                lookup (p ++ [Key key]) D' = Some (JFloat (x * half)%float)).
Proof.
  intro W. split; [split |]; [| | split].
  - intros [D' S] p key n T.
    destruct (scale_destinations_target _ _ _ _ _ _ W S T) as (r & Hr & _).
    eauto.
  - now apply scale_destinations_total.
  - intros D' p key n S T. eapply scale_destinations_target; eassumption.
  - intros D' p key n -> S T.
    destruct (scale_destinations_target _ _ _ _ _ _ W S T) as (r & Hr & L).
    destruct n as [z | f]; simpl in Hr.
    + bind_inv Hr. injection Hr as <-. exists a. split; assumption.
    + injection Hr as <-. exists f. split; [reflexivity | assumption].
Qed.

Lemma scale_destinations_scales_targets_witness :
  exists x,
    to_float (PInt 3) = Ok x /\
    lookup ([Key "sprites"; Index 0] ++ [Key "dest_x"]) sample_config_scaled
    = Some (JFloat (x * half)%float).
Proof.
  destruct (scale_destinations_scales_targets (PFloat half) sample_config eq_refl)
    as (_ & _ & H).
  apply (H sample_config_scaled [Key "sprites"; Index 0] "dest_x" (PInt 3) eq_refl).
  - vm_compute. reflexivity.
  - exists [("dest_x", JInt 3); ("my_dest_y_2", JFloat 1.5); ("name", JStr "a")],
      (JInt 3).
    repeat split; reflexivity.
Defined.

(** An [x] of 11 comes out as 6, the even neighbour of 5.5, and not as 5. *)
Lemma frame_x_eleven_is_not_five :
  scale_frames atlas_eleven = Ok atlas_eleven_scaled /\
  lookup [Key "frames"; Key "a.png"; Key "frame"; Key "x"] atlas_eleven_scaled
  = Some (JInt 6) /\
  lookup [Key "frames"; Key "a.png"; Key "frame"; Key "x"] atlas_eleven_scaled
  <> Some (JInt 5).
Proof.
  split; [vm_compute; reflexivity |]. split; [reflexivity | discriminate].
Qed.

(** C2, amended. Frame scaler: a frame entry whose [frame] sub-object has
    the int fields x=10, y=20, w=30, h=40 comes out with x=5, y=10, w=15,
    h=20.  Each scaled value is the nearest integer to the half, the even
    one of the two when the half falls on a .5 boundary, so x=11 yields 6. *)
Theorem scale_frames_rounds_half_to_even
        (D D' : json) (fk : string) (fr s : dict) :
  wf_json D = true ->
  scale_frames D = Ok D' ->
  lookup [Key "frames"; Key fk] D = Some (JDict fr) ->
  dict_get "frame" fr = Some (JDict s) ->
  (dict_get "x" s = Some (JInt 10) ->
   dict_get "y" s = Some (JInt 20) ->
   dict_get "w" s = Some (JInt 30) ->
   dict_get "h" s = Some (JInt 40) ->
   lookup [Key "frames"; Key fk; Key "frame"; Key "x"] D' = Some (JInt 5) /\
   lookup [Key "frames"; Key fk; Key "frame"; Key "y"] D' = Some (JInt 10) /\
   lookup [Key "frames"; Key fk; Key "frame"; Key "w"] D' = Some (JInt 15) /\
   lookup [Key "frames"; Key fk; Key "frame"; Key "h"] D' = Some (JInt 20))
  /\
  (dict_get "x" s = Some (JInt 11) ->
   lookup [Key "frames"; Key fk; Key "frame"; Key "x"] D' = Some (JInt 6))
  /\
  (forall c n,
      In c coords ->
      dict_get c s = Some (JInt n) ->
      - 2 ^ 53 < n < 2 ^ 53 ->
      exists r,
        lookup [Key "frames"; Key fk; Key "frame"; Key c] D' = Some (JInt r) /\
        (Z.even n = true -> 2 * r = n) /\
        (Z.even n = false ->
         Z.even r = true /\ (2 * r = n - 1 \/ 2 * r = n + 1))).
Proof.
  intros W H L G.
  destruct (frame_entry_scaled D D' fk fr W H L) as (fr' & L' & _ & _ & U).
  destruct (U "frame" s (or_introl eq_refl) G) as (s' & G' & _ & _ & Us).
  assert (X : forall c v v',
             In c coords ->
             dict_get c s = Some v ->
             scale_value v scale_factor = Ok v' ->
             lookup [Key "frames"; Key fk; Key "frame"; Key c] D' = Some v').
  { intros c v v' I Gc S.
    destruct (Us c v I Gc) as (v0 & S0 & Gc').
    rewrite S in S0. injection S0 as <-.
    change [Key "frames"; Key fk; Key "frame"; Key c]
      with ([Key "frames"; Key fk] ++ [Key "frame"; Key c]).
    rewrite lookup_app, L'. simpl. now rewrite G', Gc'. }
  split; [| split].
  - intros Hx Hy Hw Hh. repeat split.
    + apply (X "x" (JInt 10)); [simpl; auto | assumption | vm_compute; reflexivity].
    + apply (X "y" (JInt 20)); [simpl; auto | assumption | vm_compute; reflexivity].
    + apply (X "w" (JInt 30)); [simpl; auto | assumption | vm_compute; reflexivity].
    + apply (X "h" (JInt 40)); [simpl; auto | assumption | vm_compute; reflexivity].
  - intro Hx.
    apply (X "x" (JInt 11)); [simpl; auto | assumption | vm_compute; reflexivity].
  - intros c n I Gc B.
    destruct (scale_value_small_int n B) as (r & S & E).
    exists r. split; [| exact E]. now apply (X c (JInt n)).
Qed.

Lemma scale_frames_rounds_half_to_even_witness :
  lookup [Key "frames"; Key "hero.png"; Key "frame"; Key "x"] sample_atlas_scaled
  = Some (JInt 5) /\
  lookup [Key "frames"; Key "hero.png"; Key "frame"; Key "y"] sample_atlas_scaled
  = Some (JInt 10) /\
  lookup [Key "frames"; Key "hero.png"; Key "frame"; Key "w"] sample_atlas_scaled
  = Some (JInt 15) /\
  lookup [Key "frames"; Key "hero.png"; Key "frame"; Key "h"] sample_atlas_scaled
  = Some (JInt 20).
Proof.
  destruct (scale_frames_rounds_half_to_even
              sample_atlas sample_atlas_scaled "hero.png"
              [("frame", JDict [("x", JInt 10); ("y", JInt 20);
                                ("w", JInt 30); ("h", JInt 40)]);
               ("rotated", JBool false);
               ("sourceSize", JDict [("w", JInt 11); ("h", JInt 9);
                                     ("unit", JStr "px")])]
              [("x", JInt 10); ("y", JInt 20); ("w", JInt 30); ("h", JInt 40)])
    as (H & _).
  - reflexivity.
  - vm_compute. reflexivity.
  - reflexivity.
  - reflexivity.
  - apply H; reflexivity.
Defined.

(** C3. Generic scaler: a dict entry whose key contains [dest_x] or
    [dest_y] but whose value is not a number is not multiplied: the output
    holds at that key the value walked in its turn.  That is the very same
    value whenever no target lies inside it (a string, [null], a container
    without targets); in general it has the shape of the value and the
    leaves of the value, except that the targets further down are scaled
    like any other. *)
Theorem scale_destinations_matching_key_not_number
        (scale : pynum) (D D' : json) (p : list step) (d : dict)
        (key : string) (value : json) :
  wf_json D = true ->
  scale_destinations scale D = Ok D' ->
  lookup p D = Some (JDict d) ->
  dict_get key d = Some value ->
  key_matches key = true ->
  is_number value = false ->
  exists value',
    lookup (p ++ [Key key]) D' = Some value' /\
    scale_destinations scale value = Ok value' /\
    (has_target value = false -> value' = value) /\
    shape_of value' = shape_of value /\
    (forall q v,
        lookup q value = Some v ->
        is_container v = false ->
        is_number v && ends_on_matching_key q = false ->
        lookup q value' = Some v) /\
    (forall q k n,
        targeted value q k n ->
        exists r, py_mul n scale = Ok r /\
                  lookup ((p ++ [Key key]) ++ q ++ [Key k]) D'
                  = Some (json_of_num r)).
Proof.
  intros W S L G M N.
  assert (Lv : lookup (p ++ [Key key]) D = Some value)
    by (rewrite lookup_app, L; simpl; now rewrite G).
  destruct (lookup_scale_destinations scale _ D D' value W S Lv N)
    as (value' & L' & S').
  pose proof (wf_json_lookup _ _ _ W Lv) as Wv.
  exists value'. repeat split; try assumption.
  - intro T. rewrite (scale_destinations_no_target scale value Wv T) in S'.
    now injection S' as <-.
  - now apply scale_destinations_shape with (scale := scale).
  - intros q v. now apply scale_destinations_other_leaves with (scale := scale).
  - intros q k n T.
    destruct (scale_destinations_target _ _ _ _ _ _ Wv S' T) as (r & Hr & Lr).
    exists r. split; [assumption |].
    now rewrite lookup_app, L'.
Qed.

Lemma scale_destinations_matching_key_not_number_witness :
  exists value',
    lookup ([] ++ [Key "dest_x_group"]) sample_config_scaled = Some value' /\
    shape_of value' = shape_of (JDict [("dest_y", JBool true); ("dest_x", JNull)]) /\
    lookup [Key "dest_x"] value' = Some JNull.
Proof.
  destruct (scale_destinations_matching_key_not_number
              (PFloat half) sample_config sample_config_scaled []
              [("sprites",
                JList [JDict [("dest_x", JInt 3); ("my_dest_y_2", JFloat 1.5);
                              ("name", JStr "a")];
                       JInt 4]);
               ("dest_x_group", JDict [("dest_y", JBool true); ("dest_x", JNull)]);
               ("dest_y", JStr "top")]
              "dest_x_group"
              (JDict [("dest_y", JBool true); ("dest_x", JNull)]))
    as (value' & L & _ & _ & Sh & Lv & _).
  - reflexivity.
  - vm_compute. reflexivity.
  - reflexivity.
  - reflexivity.
  - reflexivity.
  - reflexivity.
  - exists value'. split; [exact L |]. split; [exact Sh |].
    apply Lv; reflexivity.
Defined.

(** C4. Generic scaler: a dict entry whose key contains [dest_x] or
    [dest_y] and whose value is the JSON boolean [true] or [false] counts as
    a number and holds [0.5] or [0.0] in the output. *)
Theorem scale_destinations_scales_booleans
        (D D' : json) (p : list step) (d : dict) (key : string) (b : bool) :
  wf_json D = true ->
  scale_destinations (PFloat half) D = Ok D' ->
  lookup p D = Some (JDict d) ->
  dict_get key d = Some (JBool b) ->
  key_matches key = true ->
  is_number (JBool b) = true /\
  lookup (p ++ [Key key]) D' = Some (JFloat (if b then 0.5 else 0)%float).
Proof.
  intros W S L G M. split; [reflexivity |].
  destruct (scale_destinations_target (PFloat half) D D' p key (PInt (Z.b2z b)) W S)
    as (r & Hr & Lr).
  { exists d, (JBool b). auto. }
  rewrite Lr. destruct b; vm_compute in Hr; injection Hr as <-; reflexivity.
Qed.

Lemma scale_destinations_scales_booleans_witness :
  is_number (JBool true) = true /\
  lookup ([Key "dest_x_group"] ++ [Key "dest_y"]) sample_config_scaled
  = Some (JFloat 0.5%float).
Proof.
  apply (scale_destinations_scales_booleans
           sample_config sample_config_scaled [Key "dest_x_group"]
           [("dest_y", JBool true); ("dest_x", JNull)] "dest_y" true).
  - reflexivity.
  - vm_compute. reflexivity.
  - reflexivity.
  - reflexivity.
  - reflexivity.
Defined.

(** C5. Both scripts: the output has the structural shape of the input,
    that is the same keys in the same order in every dict, the same list
    lengths and the same nesting, and every leaf that does not sit at a
    targeted key is the one of the input. *)
Theorem output_has_shape_of_input (D D' : json) :
  wf_json D = true ->
  (forall scale,
      scale_destinations scale D = Ok D' ->
      shape_of D' = shape_of D /\
      forall p v,
        lookup p D = Some v ->
        is_container v = false ->
        is_number v && ends_on_matching_key p = false ->
        lookup p D' = Some v)
  /\
  (scale_frames D = Ok D' ->
   shape_of D' = shape_of D /\
   forall p v,
     lookup p D = Some v ->
     is_container v = false ->
     frame_target p = false ->
     lookup p D' = Some v).
Proof.
  intro W. split.
  - intros scale S. split.
    + now apply scale_destinations_shape with (scale := scale).
    + intros p v. now apply scale_destinations_other_leaves with (scale := scale).
  - intro S. split.
    + now apply scale_frames_shape.
    + intros p v. now apply scale_frames_other_leaves.
Qed.

Lemma output_has_shape_of_input_witness :
  shape_of sample_config_scaled = shape_of sample_config /\
  shape_of sample_atlas_scaled = shape_of sample_atlas.
Proof.
  split.
  - destruct (output_has_shape_of_input sample_config sample_config_scaled eq_refl)
      as [H _].
    apply (H (PFloat half)). vm_compute. reflexivity.
  - destruct (output_has_shape_of_input sample_atlas sample_atlas_scaled eq_refl)
      as [_ H].
    apply H. vm_compute. reflexivity.
Defined.

(** C6. Frame scaler: in each frame, the sub-objects [frame],
    [spriteSourceSize] and [sourceSize] that are there have their [x], [y],
    [w], [h] fields that are there replaced by the scaled value; no key is
    added anywhere (a frame without [spriteSourceSize] has none in the
    output), and every other field is left alone. *)
Theorem scale_frames_present_keys_only
        (D D' : json) (fk : string) (fr : dict) :
  wf_json D = true ->
  scale_frames D = Ok D' ->
  lookup [Key "frames"; Key fk] D = Some (JDict fr) ->
  exists fr',
    lookup [Key "frames"; Key fk] D' = Some (JDict fr') /\
    map fst fr' = map fst fr /\
    (dict_mem "spriteSourceSize" fr = false ->
     dict_mem "spriteSourceSize" fr' = false) /\
    (forall name, ~ In name subs -> dict_get name fr' = dict_get name fr) /\
    (forall name s,
        In name subs ->
        dict_get name fr = Some (JDict s) ->
        exists s',
          dict_get name fr' = Some (JDict s') /\
          map fst s' = map fst s /\
          (forall c, dict_mem c s' = dict_mem c s) /\
          (forall c, ~ In c coords -> dict_get c s' = dict_get c s) /\
          (forall c v,
              In c coords ->
              dict_get c s = Some v ->
              exists v', scale_value v scale_factor = Ok v' /\
                         dict_get c s' = Some v')).
Proof.
  intros W H L.
  destruct (frame_entry_scaled D D' fk fr W H L) as (fr' & L' & K & O & U).
  exists fr'. repeat split; try assumption.
  - intro M. now rewrite (dict_mem_keys _ _ K).
  - intros name s I G.
    destruct (U name s I G) as (s' & G' & Ks & Os & Us).
    exists s'. repeat split; try assumption.
    now apply dict_mem_keys.
Qed.

Lemma scale_frames_present_keys_only_witness :
  exists fr',
    lookup [Key "frames"; Key "hero.png"] sample_atlas_scaled = Some (JDict fr') /\
    dict_mem "spriteSourceSize" fr' = false /\
    dict_get "rotated" fr' = Some (JBool false).
Proof.
  destruct (scale_frames_present_keys_only
              sample_atlas sample_atlas_scaled "hero.png"
              [("frame", JDict [("x", JInt 10); ("y", JInt 20);
                                ("w", JInt 30); ("h", JInt 40)]);
               ("rotated", JBool false);
               ("sourceSize", JDict [("w", JInt 11); ("h", JInt 9);
                                     ("unit", JStr "px")])])
    as (fr' & L & _ & M & O & _).
  - reflexivity.
  - vm_compute. reflexivity.
  - reflexivity.
  - exists fr'. split; [exact L |]. split; [now apply M |].
    rewrite O; [reflexivity |].
    unfold subs. simpl. intuition discriminate.
Defined.

(** With factor 1 the document can change.  With the int 1 a targeted
    [true] becomes the int 1.  With the float 1.0 a targeted int becomes a
    float: 2 becomes 2.0, and [2^53 + 1], which no binary64 holds, becomes
    [2^53]. *)
Lemma factor_one_is_not_a_noop :
  (scale_destinations (PInt 1) (JDict [("dest_x", JBool true)])
   = Ok (JDict [("dest_x", JInt 1)]) /\
   scale_destinations (PInt 1) (JDict [("dest_x", JBool true)])
   <> Ok (JDict [("dest_x", JBool true)])) /\
  (scale_destinations (PFloat 1) (JDict [("dest_x", JInt 2)])
   = Ok (JDict [("dest_x", JFloat 2)]) /\
   scale_destinations (PFloat 1) (JDict [("dest_x", JInt 2)])
   <> Ok (JDict [("dest_x", JInt 2)])) /\
  (scale_destinations (PFloat 1) (JDict [("dest_x", JInt 9007199254740993)])
   = Ok (JDict [("dest_x", JFloat 9007199254740992)]) /\
   scale_destinations (PFloat 1) (JDict [("dest_x", JInt 9007199254740993)])
   <> Ok (JDict [("dest_x", JInt 9007199254740993)])).
Proof.
  assert (K : forall D j j',
             scale_destinations (PFloat 1) D = Ok j ->
             (match lookup [Key "dest_x"] j with
              | Some (JFloat _) => true
              | _ => false
              end) = true ->
             (match lookup [Key "dest_x"] j' with
              | Some (JFloat _) => true
              | _ => false
              end) = false ->
             scale_destinations (PFloat 1) D <> Ok j').
  { intros D j j' -> T F E.
    apply (f_equal (fun r => match r with
                             | Ok a => match lookup [Key "dest_x"] a with
                                       | Some (JFloat _) => true
                                       | _ => false
                                       end
                             | Raise _ => false
                             end)) in E.
    rewrite T, F in E. discriminate. }
  split; [split; [reflexivity | discriminate] |].
  split; (split; [vm_compute; reflexivity |]);
    (eapply K; [vm_compute; reflexivity | reflexivity | reflexivity]).
Qed.

(** C7, amended. Generic scaler: two passes with factor 0.5 give exactly
    what one pass with factor 0.25 gives, so every targeted number ends up
    multiplied by 0.25; one pass is not idempotent; a pass with the int
    factor 1 changes nothing in a document that has no boolean at a
    targeted key; a pass with the float factor 1.0 changes nothing in a
    document whose targeted values are all floats, and in any document
    leaves at each target [n] the float [float(n)]. *)
Theorem scaling_twice_quarters (D : json) :
  wf_json D = true ->
  (forall D1,
      scale_destinations (PFloat half) D = Ok D1 ->
      exists D2,
        scale_destinations (PFloat half) D1 = Ok D2 /\
        scale_destinations (PFloat quarter) D = Ok D2 /\
        forall p key n,
          targeted D p key n ->
          exists x, to_float n = Ok x /\
                    lookup (p ++ [Key key]) D2 = Some (JFloat (x * quarter)%float))
  /\
  (scale_destinations (PFloat half) one_target = Ok one_target_once /\
   scale_destinations (PFloat half) one_target_once = Ok one_target_twice /\
   one_target_twice <> one_target_once)
  /\
  (has_bool_target D = false -> scale_destinations (PInt 1) D = Ok D)
  /\
  (has_int_target D = false -> scale_destinations (PFloat 1) D = Ok D)
  /\
  (forall D1,
      scale_destinations (PFloat 1) D = Ok D1 ->
      forall p key n,
        targeted D p key n ->
        exists x, to_float n = Ok x /\
                  lookup (p ++ [Key key]) D1 = Some (JFloat x)).
Proof.
  intro W. split; [| split; [| split; [| split]]].
  - intros D1 S.
    destruct (scale_half_twice D D1 W S) as (D2 & S2 & Q).
    exists D2. repeat split; try assumption.
    intros p key n T.
    destruct (scale_destinations_target _ _ _ _ _ _ W Q T) as (r & Hr & L).
    rewrite py_mul_float in Hr. bind_inv Hr. injection Hr as <-.
    exists a. split; assumption.
  - repeat split; try reflexivity.
    intro E.
    apply (f_equal (fun j => match lookup [Key "dest_x"] j with
                             | Some (JFloat f) => Prim2SF f
                             | _ => S754_nan
                             end)) in E.
    vm_compute in E. discriminate.
  - now apply scale_by_one_noop.
  - now apply scale_by_float_one_noop.
  - intros D1 S p key n T.
    destruct (scale_destinations_target _ _ _ _ _ _ W S T) as (r & Hr & L).
    rewrite py_mul_float in Hr. bind_inv Hr. injection Hr as <-.
    exists a. split; [assumption |]. now rewrite mul_one in L.
Qed.

Lemma scaling_twice_quarters_witness :
  exists D2,
    scale_destinations (PFloat half) sample_config_scaled = Ok D2 /\
    scale_destinations (PFloat quarter) sample_config = Ok D2 /\
    forall p key n,
      targeted sample_config p key n ->
      exists x, to_float n = Ok x /\
                lookup (p ++ [Key key]) D2 = Some (JFloat (x * quarter)%float).
Proof.
  destruct (scaling_twice_quarters sample_config eq_refl) as (H & _).
  apply (H sample_config_scaled). vm_compute. reflexivity.
Defined.

(** C8. Frame scaler: a top-level [size] entry of the input is in the
    output exactly as it was. *)
Theorem top_level_size_untouched (D D' v : json) :
  scale_frames D = Ok D' ->
  lookup [Key "size"] D = Some v ->
  lookup [Key "size"] D' = Some v.
Proof.
  intros H L. destruct D; try discriminate. simpl in H.
  destruct (dict_get "frames" d) as [fs |].
  - destruct fs; try discriminate. bind_inv H. injection H as <-.
    simpl in *. now rewrite dict_get_set_other.
  - now injection H as <-.
Qed.

Lemma top_level_size_untouched_witness :
  lookup [Key "size"] sample_atlas_scaled
  = Some (JDict [("w", JInt 100); ("h", JInt 50)]).
Proof.
  apply (top_level_size_untouched sample_atlas).
  - vm_compute. reflexivity.
  - reflexivity.
Defined.

(** C9. Frame scaler: on a document whose top-level mapping has no
    [frames] key the transform changes nothing, and the run, the output file
    being opened and written without error, writes that very document to
    it. *)
Theorem no_frames_key_is_noop
        (json_loads : string -> option json) (json_dumps : nat -> json -> string)
        (d : dict) (prog input_file output_file text : string) (w : world) :
  dict_mem "frames" d = false ->
  files w input_file = Some text ->
  json_loads text = Some (JDict d) ->
  writable w output_file = true ->
  write_error w output_file (json_dumps 4%nat (JDict d)) = None ->
  scale_frames (JDict d) = Ok (JDict d) /\
  exists w',
    ScaleFrames.main json_loads json_dumps [prog; input_file; output_file] w
    = (Exited 0, w') /\
    files w' output_file = Some (json_dumps 4%nat (JDict d)).
Proof.
  intros M R P Wr We.
  assert (S : scale_frames (JDict d) = Ok (JDict d)).
  { unfold dict_mem in M. simpl.
    destruct (dict_get "frames" d); [discriminate | reflexivity]. }
  split; [exact S |].
  unfold ScaleFrames.main, read_file. rewrite R, P, S.
  unfold write_file. simpl. rewrite Wr, We.
  eexists. split; [reflexivity |].
  simpl. now rewrite String.eqb_refl.
Qed.

Lemma no_frames_key_is_noop_witness :
  scale_frames (JDict [("meta", JNull)]) = Ok (JDict [("meta", JNull)]) /\
  exists w',
    ScaleFrames.main (fun _ => Some (JDict [("meta", JNull)])) (fun _ _ => "{}")
      ["scale_frames.py"; "in.json"; "out.json"] sample_world
    = (Exited 0, w') /\
    files w' "out.json" = Some "{}".
Proof.
  apply (no_frames_key_is_noop
           (fun _ => Some (JDict [("meta", JNull)])) (fun _ _ => "{}")
           [("meta", JNull)] "scale_frames.py" "in.json" "out.json" "{}" sample_world);
    reflexivity.
Defined.

(** C10. Both scripts: with any number of command-line arguments other
    than two, the run prints the usage line on standard output and exits
    with status 1, without opening or changing any file. *)
Theorem wrong_argument_count_prints_usage
        (json_loads : string -> option json) (json_dumps : nat -> json -> string)
        (argv : list string) (w : world) :
  List.length argv <> 3%nat ->
  usage_exit (ScaleConfig.main json_loads json_dumps argv w) w ScaleConfig.usage /\
  usage_exit (ScaleFrames.main json_loads json_dumps argv w) w ScaleFrames.usage.
Proof.
  intro N.
  destruct argv as [|a0 [|a1 [|a2 [|a3 rest]]]]; simpl in N;
    try (exfalso; apply N; reflexivity);
    split; repeat split.
Qed.

Lemma wrong_argument_count_prints_usage_witness :
  usage_exit (ScaleConfig.main (fun _ => None) (fun _ _ => "")
                ["scale_config.py"; "in.json"] sample_world)
             sample_world ScaleConfig.usage /\
  usage_exit (ScaleFrames.main (fun _ => None) (fun _ _ => "")
                ["scale_config.py"; "in.json"] sample_world)
             sample_world ScaleFrames.usage.
Proof.
  apply (wrong_argument_count_prints_usage
           (fun _ => None) (fun _ _ => "") ["scale_config.py"; "in.json"] sample_world).
  simpl. lia.
Defined.

(** * Further properties of the code *)

(** ** The substring rule *)

Lemma prefix_iff (needle : string) :
  forall hay, String.prefix needle hay = true <-> exists b, hay = (needle ++ b)%string.
Proof.
  induction needle as [| c needle IH]; intro hay.
  - split; [intros _; exists hay; reflexivity | intros _; now destruct hay].
  - destruct hay as [| c' hay]; simpl.
    + split; [discriminate | intros [b H]; discriminate].
    + destruct (ascii_dec c c') as [<- | N].
      * rewrite IH. split; intros [b H]; exists b.
        -- now rewrite H.
        -- now injection H.
      * split; [discriminate |]. intros [b H]. injection H as H _. now destruct N.
Qed.

Lemma contains_iff (needle hay : string) :
  contains needle hay = true <-> exists a b, hay = (a ++ needle ++ b)%string.
Proof.
  split.
  - induction hay as [| c hay IH]; simpl; intro H;
      apply orb_true_iff in H as [H | H]; try discriminate.
    + apply (prefix_iff needle "") in H as [b H]. now exists "", b.
    + apply (prefix_iff needle (String c hay)) in H as [b H]. now exists "", b.
    + destruct (IH H) as (a & b & ->). now exists (String c a), b.
  - intros (a & b & ->). induction a as [| c a IH].
    + assert (P : String.prefix needle (needle ++ b)%string = true)
        by (apply prefix_iff; now exists b).
      simpl. revert P. generalize (needle ++ b)%string.
      intros h P. destruct h; cbn [contains]; now rewrite P.
    + simpl. rewrite IH. apply orb_true_r.
Qed.

(** X1. A key is a target name exactly when [dest_x] or [dest_y] occurs
    somewhere in it, whatever comes before and after. *)
Theorem key_matches_iff (key : string) :
  key_matches key = true <->
  exists a b, key = (a ++ "dest_x" ++ b)%string \/ key = (a ++ "dest_y" ++ b)%string.
Proof.
  unfold key_matches. rewrite orb_true_iff, !contains_iff. split.
  - intros [(a & b & H) | (a & b & H)]; exists a, b; auto.
  - intros (a & b & [H | H]); [left | right]; now exists a, b.
Qed.

(** ** What the generic scaler can raise *)

Lemma float_of_int_raise (n : Z) (e : exn) :
  float_of_int n = Raise e -> e = OverflowError.
Proof.
  unfold float_of_int.
  destruct (binary_normalize prec emax n 0 false); intro H;
    try discriminate; now injection H.
Qed.

Lemma py_mul_raise (a b : pynum) (e : exn) :
  py_mul a b = Raise e -> e = OverflowError.
Proof.
  destruct a as [x | x], b as [y | y]; simpl; try discriminate.
  - destruct (float_of_int x) eqn:F; simpl; [discriminate |].
    intro H. injection H as <-. eapply float_of_int_raise, F.
  - destruct (float_of_int y) eqn:F; simpl; [discriminate |].
    intro H. injection H as <-. eapply float_of_int_raise, F.
Qed.

Lemma mapM_raise {A B : Type} (f : A -> result B) (l : list A) (e : exn) :
  mapM f l = Raise e -> exists a, In a l /\ f a = Raise e.
Proof.
  induction l as [| a l IH]; simpl; [discriminate |].
  destruct (f a) eqn:F; simpl.
  - destruct (mapM f l); simpl; [discriminate |].
    intro H. destruct (IH H) as (a1 & I & E). exists a1. auto.
  - intro H. injection H as <-. exists a. auto.
Qed.

Lemma dict_loop_raise (scale : pynum) (recur : json -> result json)
      (items : dict) (e : exn) :
  forall cur,
    dict_loop scale recur items cur = Raise e ->
    exists k v,
      In (k, v) items /\
      ((is_number v = true /\ scaled v scale = Raise e) \/ recur v = Raise e).
Proof.
  induction items as [| [k v] rest IH]; intros cur H; simpl in H;
    [discriminate |].
  destruct (is_number v && key_matches k) eqn:T.
  - apply andb_true_iff in T as [T _].
    destruct (scaled v scale) eqn:S; simpl in H.
    + destruct (IH _ H) as (k1 & v1 & I & E). exists k1, v1. simpl. auto.
    + injection H as <-. exists k, v. simpl. auto.
  - destruct (recur v) eqn:S; simpl in H.
    + destruct (IH _ H) as (k1 & v1 & I & E). exists k1, v1. simpl. auto.
    + injection H as <-. exists k, v. simpl. auto.
Qed.

(** X2. Whatever the document and the factor, the only exception the
    operations of [scale_destinations] raise is [OverflowError] (an int too
    large for a float): never a [TypeError], [KeyError] or [IndexError].
    (The interpreter's recursion limit, on a document nested deeper than it
    allows, is outside the model.) *)
Theorem scale_destinations_raises_only_overflow
        (scale : pynum) (D : json) (e : exn) :
  scale_destinations scale D = Raise e -> e = OverflowError.
Proof.
  induction D as [| | | | | l IH | d IH] using json_nested_ind;
    intro H; try discriminate.
  - rewrite scale_destinations_list in H.
    destruct (mapM (scale_destinations scale) l) eqn:M; simpl in H;
      [discriminate |].
    injection H as <-. apply mapM_raise in M as (a & I & E).
    rewrite Forall_forall in IH. exact (IH a I E).
  - change (scale_destinations scale (JDict d))
      with (d' <- dict_loop scale (scale_destinations scale) d d ;; Ok (JDict d'))
      in H.
    destruct (dict_loop scale (scale_destinations scale) d d) eqn:M; simpl in H;
      [discriminate |].
    injection H as <-.
    apply dict_loop_raise in M as (k & v & I & [[N S] | S]).
    + apply is_number_as_number in N as [n N].
      rewrite (scaled_defined _ _ _ N) in S.
      destruct (py_mul n scale) eqn:P; simpl in S; [discriminate |].
      injection S as <-. eapply py_mul_raise, P.
    + rewrite Forall_forall in IH. exact (IH (k, v) I S).
Qed.

Lemma scale_destinations_raises_only_overflow_witness :
  exists e,
    scale_destinations (PFloat half) (JDict [("dest_x", JInt (10 ^ 400))])
    = Raise e /\
    e = OverflowError.
Proof.
  exists OverflowError. split; [vm_compute; reflexivity |].
  apply (scale_destinations_raises_only_overflow
           (PFloat half) (JDict [("dest_x", JInt (10 ^ 400))]) OverflowError).
  vm_compute. reflexivity.
Defined.

(** ** Documents and values the generic scaler leaves alone *)

(** X3. A document in which no dict entry has both a matching key and a
    number value is returned as it is, whatever the factor. *)
Theorem document_without_targets_unchanged (scale : pynum) (D : json) :
  wf_json D = true ->
  has_target D = false ->
  scale_destinations scale D = Ok D.
Proof. apply scale_destinations_no_target. Qed.

Lemma document_without_targets_unchanged_witness :
  scale_destinations (PFloat half)
    (JDict [("x", JInt 4); ("dest_x", JStr "4"); ("pts", JList [JInt 1; JFloat 2])])
  = Ok (JDict [("x", JInt 4); ("dest_x", JStr "4"); ("pts", JList [JInt 1; JFloat 2])]).
Proof.
  apply (document_without_targets_unchanged (PFloat half)); reflexivity.
Defined.

Lemma scalars_have_no_target (l : list json) :
  forallb (fun x => negb (is_container x)) l = true ->
  has_target (JList l) = false.
Proof.
  simpl. induction l as [| x l IH]; simpl; [reflexivity |].
  intro H. apply andb_true_iff in H as [Hx Hl].
  rewrite (IH Hl), orb_false_r. now destruct x.
Qed.

(** X4. Numbers are scaled only as the direct value of a matching key: a
    list of plain values stored under a matching key comes out as it went
    in, numbers included. *)
Theorem list_under_matching_key_unchanged
        (scale : pynum) (D D' : json) (p : list step) (d : dict)
        (key : string) (l : list json) :
  wf_json D = true ->
  scale_destinations scale D = Ok D' ->
  lookup p D = Some (JDict d) ->
  dict_get key d = Some (JList l) ->
  forallb (fun x => negb (is_container x)) l = true ->
  lookup (p ++ [Key key]) D' = Some (JList l).
Proof.
  intros W S L G A.
  assert (Lv : lookup (p ++ [Key key]) D = Some (JList l))
    by (rewrite lookup_app, L; simpl; now rewrite G).
  destruct (lookup_scale_destinations scale _ D D' (JList l) W S Lv eq_refl)
    as (v' & L' & S').
  rewrite scale_destinations_no_target in S'.
  - now injection S' as <-.
  - exact (wf_json_lookup _ _ _ W Lv).
  - now apply scalars_have_no_target.
Qed.

Lemma list_under_matching_key_unchanged_witness :
  lookup ([] ++ [Key "dest_x"])
    (JDict [("dest_x", JList [JInt 10; JFloat 2.5]); ("dest_y", JFloat 2)])
  = Some (JList [JInt 10; JFloat 2.5]).
Proof.
  apply (list_under_matching_key_unchanged
           (PFloat half)
           (JDict [("dest_x", JList [JInt 10; JFloat 2.5]); ("dest_y", JInt 4)])
           (JDict [("dest_x", JList [JInt 10; JFloat 2.5]); ("dest_y", JFloat 2)])
           []
           [("dest_x", JList [JInt 10; JFloat 2.5]); ("dest_y", JInt 4)]);
    reflexivity.
Defined.

(** ** Int factors *)

Lemma mapM_triple {A B C : Type} (f : A -> result B) (g : B -> result C)
      (h : A -> result C) (l : list A) :
  Forall (fun x => exists y z, f x = Ok y /\ g y = Ok z /\ h x = Ok z) l ->
  exists l1 l2, mapM f l = Ok l1 /\ mapM g l1 = Ok l2 /\ mapM h l = Ok l2.
Proof.
  induction 1 as [| x l (y & z & Hf & Hg & Hh) _ (l1 & l2 & Mf & Mg & Mh)].
  - exists [], []. auto.
  - exists (y :: l1), (z :: l2). simpl. now rewrite Hf, Mf, Hg, Mg, Hh, Mh.
Qed.

Lemma scaled_by_int (v : json) (k : Z) :
  is_number v = true ->
  match v with JFloat _ => false | _ => true end = true ->
  exists z, as_number v = Some (PInt z) /\ scaled v (PInt k) = Ok (JInt (z * k)).
Proof.
  destruct v; try discriminate; intros _ _; eexists; split; reflexivity.
Qed.

(** X5. With int factors and no float among the targets nothing is ever
    rounded: a pass always goes through, and a pass with factor [a]
    followed by a pass with factor [b] gives what one pass with factor
    [a * b] gives. *)
Theorem int_factors_compose (a b : Z) (D : json) :
  wf_json D = true ->
  has_float_target D = false ->
  exists D1 D2,
    scale_destinations (PInt a) D = Ok D1 /\
    scale_destinations (PInt b) D1 = Ok D2 /\
    scale_destinations (PInt (a * b)) D = Ok D2.
Proof.
  induction D as [| | | | | l IH | d IH] using json_nested_ind;
    intros W T; try (eexists; eexists; repeat split; reflexivity).
  - rewrite !scale_destinations_list.
    destruct (mapM_triple (scale_destinations (PInt a))
                          (scale_destinations (PInt b))
                          (scale_destinations (PInt (a * b))) l)
      as (l1 & l2 & M1 & M2 & M3).
    { rewrite Forall_forall in *. intros x I. apply IH; [assumption | |].
      - eapply wf_json_list; eassumption.
      - simpl in T. destruct (has_float_target x) eqn:E; [| reflexivity].
        rewrite <- T. symmetry. apply existsb_exists. eauto. }
    exists (JList l1), (JList l2).
    rewrite scale_destinations_list, M1, M2, M3. auto.
  - pose proof W as W0. apply wf_json_dict in W as [N Wd].
    destruct (mapM_triple
                (scale_entry (PInt a) (scale_destinations (PInt a)))
                (scale_entry (PInt b) (scale_destinations (PInt b)))
                (scale_entry (PInt (a * b)) (scale_destinations (PInt (a * b)))) d)
      as (d1 & d2 & M1 & M2 & M3).
    { rewrite Forall_forall in *. intros [k v] I.
      assert (E : (match v with JFloat _ => true | _ => false end && key_matches k)
                  || has_float_target v = false).
      { simpl in T.
        destruct ((match v with JFloat _ => true | _ => false end && key_matches k)
                  || has_float_target v) eqn:E; [| reflexivity].
        rewrite <- T. symmetry. apply existsb_exists. exists (k, v). auto. }
      apply orb_false_iff in E as [E1 E2].
      simpl. destruct (is_number v && key_matches k) eqn:M.
      - apply andb_true_iff in M as [M1 M2]. rewrite M2, andb_true_r in E1.
        assert (F : match v with JFloat _ => false | _ => true end = true)
          by (now destruct v).
        destruct (scaled_by_int v a M1 F) as (z & Hz & Sa).
        destruct (scaled_by_int v (a * b) M1 F) as (z' & Hz' & Sab).
        rewrite Hz in Hz'. injection Hz' as <-.
        exists (k, JInt (z * a)), (k, JInt (z * a * b)).
        rewrite Sa, Sab. cbn [bind scale_entry is_number as_number andb].
        rewrite M2. unfold scaled. cbn [as_number py_mul bind json_of_num].
        repeat split. now rewrite Z.mul_assoc.
      - destruct (IH (k, v) I (Wd k v I) E2) as (v1 & v2 & S1 & S2 & S3).
        simpl in S1, S3. exists (k, v1), (k, v2).
        rewrite S1, S3. cbn [bind scale_entry].
        rewrite (scale_destinations_is_number _ _ _ S1), M, S2. auto. }
    assert (S1 : scale_destinations (PInt a) (JDict d) = Ok (JDict d1))
      by (rewrite scale_destinations_dict, M1 by assumption; reflexivity).
    pose proof (scale_destinations_wf _ _ _ W0 S1) as W1.
    apply wf_json_dict in W1 as [N1 _].
    exists (JDict d1), (JDict d2). split; [exact S1 |].
    rewrite !scale_destinations_dict by assumption.
    now rewrite M2, M3.
Qed.

Lemma int_factors_compose_witness :
  exists D1 D2,
    scale_destinations (PInt 2) (JDict [("dest_x", JInt 3); ("dest_y", JBool true)])
    = Ok D1 /\
    scale_destinations (PInt 5) D1 = Ok D2 /\
    scale_destinations (PInt (2 * 5)) (JDict [("dest_x", JInt 3); ("dest_y", JBool true)])
    = Ok D2.
Proof.
  apply (int_factors_compose 2 5); reflexivity.
Defined.

(** ** From the output back to the input *)

Section generic_scaler_backwards.
Variable scale : pynum.

Lemma entries_get_rev (d d' : dict) (k : string) (v' : json) :
  Forall2 (fun kv kv' =>
             scale_entry scale (scale_destinations scale) kv = Ok kv') d d' ->
  dict_get k d' = Some v' ->
  exists v, dict_get k d = Some v /\
            scale_entry scale (scale_destinations scale) (k, v) = Ok (k, v').
Proof.
  induction 1 as [|[k0 v0] [k0' v0'] d d' H _ IH]; simpl; [discriminate |].
  pose proof (scale_entry_key _ _ _ _ _ _ H) as ->.
  destruct (String.eqb k k0) eqn:E.
  - apply String.eqb_eq in E. subst k0.
    intro G. injection G as <-. eauto.
  - exact IH.
Qed.

Lemma elements_nth_rev (l l' : list json) (i : nat) (x' : json) :
  Forall2 (fun a b => scale_destinations scale a = Ok b) l l' ->
  nth_error l' i = Some x' ->
  exists x, nth_error l i = Some x /\ scale_destinations scale x = Ok x'.
Proof.
  intro H. revert i. induction H as [|a b l l' H _ IH]; intros [|i]; simpl;
    try discriminate.
  - intro G. injection G as <-. eauto.
  - apply IH.
Qed.

Lemma scale_destinations_to_dict (D : json) (d' : dict) :
  scale_destinations scale D = Ok (JDict d') -> exists d, D = JDict d.
Proof.
  destruct D; intro H; try (injection H as H; discriminate); [| eauto].
  rewrite scale_destinations_list in H. bind_inv H. discriminate.
Qed.

Lemma scale_destinations_to_list (D : json) (l' : list json) :
  wf_json D = true ->
  scale_destinations scale D = Ok (JList l') -> exists l, D = JList l.
Proof.
  destruct D; intros W H; try (injection H as H; discriminate); [eauto |].
  apply wf_json_dict in W as [N _].
  rewrite scale_destinations_dict in H by assumption. bind_inv H. discriminate.
Qed.

Lemma lookup_scale_destinations_rev (p : list step) :
  forall D D' x',
    wf_json D = true ->
    scale_destinations scale D = Ok D' ->
    lookup p D' = Some x' ->
    is_number x' = false ->
    exists x, lookup p D = Some x /\ scale_destinations scale x = Ok x'.
Proof.
  induction p as [|[k | i] p IH]; intros D D' x' W S L N; simpl in L.
  - injection L as <-. exists D. split; [reflexivity | assumption].
  - destruct D' as [| | | | | | d']; try discriminate.
    destruct (scale_destinations_to_dict _ _ S) as [d ->].
    destruct (dict_get k d') as [v' |] eqn:G'; [| discriminate].
    destruct (scale_destinations_dict_inv _ _ _ W S) as (d0 & E0 & F).
    injection E0 as <-.
    destruct (entries_get_rev _ _ _ _ F G') as (v & G & E).
    simpl. rewrite G. simpl in E.
    destruct (is_number v && key_matches k) eqn:T.
    + apply andb_true_iff in T as [T _].
      apply is_number_as_number in T as [n T].
      rewrite (scaled_defined _ _ _ T) in E.
      bind_inv E. bind_inv Ha. injection Ha as <-. injection E as <-.
      assert (Nv : is_number (json_of_num a0) = true) by (now destruct a0).
      destruct (lookup_number _ _ _ Nv L) as [_ ->]. congruence.
    + bind_inv E. injection E as <-.
      assert (Wv : wf_json v = true)
        by (apply wf_json_dict in W as [_ W]; eapply W, dict_get_In, G).
      exact (IH _ _ _ Wv Ha L N).
  - destruct D' as [| | | | | l' |]; try discriminate.
    destruct (scale_destinations_to_list _ _ W S) as [l ->].
    destruct (nth_error l' i) as [v' |] eqn:G'; [| discriminate].
    destruct (scale_destinations_list_inv _ _ _ S) as (l0 & E0 & F).
    injection E0 as <-.
    destruct (elements_nth_rev _ _ _ _ F G') as (v & G & E).
    simpl. rewrite G.
    assert (Wv : wf_json v = true)
      by (eapply wf_json_list; [exact W |]; eapply nth_error_In, G).
    exact (IH _ _ _ Wv E L N).
Qed.

(** X6. A pass creates no target: every target of the output sits where
    the input has a target, and holds the product of that one; under a
    float factor every target of the output is a float, ints included. *)
Theorem output_targets_come_from_input
        (D D' : json) (p : list step) (key : string) (n' : pynum) :
  wf_json D = true ->
  scale_destinations scale D = Ok D' ->
  targeted D' p key n' ->
  (exists n, targeted D p key n /\ py_mul n scale = Ok n') /\
  ((exists f, scale = PFloat f) -> exists x, n' = PFloat x).
Proof.
  intros W S (d' & value' & L' & G' & M & N').
  destruct (lookup_scale_destinations_rev p D D' (JDict d') W S L' eq_refl)
    as (x & L & Sx).
  destruct (scale_destinations_to_dict _ _ Sx) as [d ->].
  pose proof (wf_json_lookup _ _ _ W L) as Wd.
  destruct (scale_destinations_dict_inv _ _ _ Wd Sx) as (d0 & E0 & F).
  injection E0 as <-.
  destruct (entries_get_rev _ _ _ _ F G') as (v & G & E). simpl in E.
  assert (Nv : is_number value' = true) by (apply is_number_as_number; eauto).
  destruct (is_number v) eqn:T; simpl in E.
  - rewrite M in E. apply is_number_as_number in T as [n T].
    rewrite (scaled_defined _ _ _ T) in E.
    bind_inv E. bind_inv Ha. injection Ha as <-. injection E as <-.
    assert (a0 = n') as -> by (destruct a0; simpl in N'; congruence).
    split.
    + exists n. split; [| assumption]. exists d, v. auto.
    + intros [f ->]. rewrite py_mul_float in Ha0. bind_inv Ha0.
      injection Ha0 as <-. eauto.
  - bind_inv E. injection E as <-.
    rewrite (scale_destinations_is_number _ _ _ Ha) in Nv. congruence.
Qed.

End generic_scaler_backwards.

Lemma output_targets_come_from_input_witness :
  (exists n, targeted sample_config [Key "dest_x_group"] "dest_y" n /\
             py_mul n (PFloat half) = Ok (PFloat 0.5)) /\
  ((exists f, PFloat half = PFloat f) -> exists x, PFloat 0.5 = PFloat x).
Proof.
  apply (output_targets_come_from_input
           (PFloat half) sample_config sample_config_scaled).
  - reflexivity.
  - vm_compute. reflexivity.
  - exists [("dest_y", JFloat 0.5); ("dest_x", JNull)], (JFloat 0.5).
    repeat split; reflexivity.
Defined.

(** ** [scale_value]: errors and rounding *)

Lemma py_round_raise (x : float) (e : exn) :
  py_round x = Raise e -> e = ValueError \/ e = OverflowError.
Proof.
  unfold py_round. destruct (Prim2SF x); intro H; try discriminate;
    injection H as <-; auto.
Qed.

(** X7. Under a float factor [scale_value] raises [TypeError] exactly on
    a value that is not a number (a string, [null], a list, a dict); on a
    number it can only raise [ValueError] or [OverflowError]; and whatever
    it returns is an int. *)
Theorem scale_value_errors (v : json) (f : float) :
  (scale_value v (PFloat f) = Raise TypeError <-> is_number v = false) /\
  (forall e, scale_value v (PFloat f) = Raise e ->
             e = TypeError \/ e = ValueError \/ e = OverflowError) /\
  (forall r, scale_value v (PFloat f) = Ok r -> exists z, r = JInt z).
Proof.
  generalize (PFloat f). intro factor.
  assert (R : forall e, scale_value v factor = Raise e ->
                        (is_number v = false /\ e = TypeError) \/
                        (is_number v = true /\
                         (e = ValueError \/ e = OverflowError))).
  { intros e. unfold scale_value, is_number.
    destruct (as_number v) as [n |]; [| intro H; injection H as <-; auto].
    destruct (py_mul n factor) as [[z | x] |] eqn:P; simpl.
    - discriminate.
    - destruct (py_round x) eqn:Q; simpl; [discriminate |].
      intro H. injection H as <-. right. split; [reflexivity |].
      eapply py_round_raise, Q.
    - intro H. injection H as <-. right. split; [reflexivity |].
      right. eapply py_mul_raise, P. }
  split; [split |]; [| | split].
  - intro H. destruct (R _ H) as [[N _] | [_ [E | E]]];
      [assumption | discriminate | discriminate].
  - unfold scale_value, is_number. now destruct (as_number v).
  - intros e H. destruct (R _ H) as [[_ E] | [_ [E | E]]]; auto.
  - intros r H. now apply scale_value_int in H as (_ & z & ->); eauto.
Qed.

(** X8. On ints of magnitude below [2^53] and under the script's factor,
    [scale_value] is within one half of the exact half and keeps the order:
    a larger input never gives a smaller output. *)
Theorem scale_value_monotone (n n' r r' : Z) :
  - 2 ^ 53 < n ->
  n <= n' ->
  n' < 2 ^ 53 ->
  scale_value (JInt n) scale_factor = Ok (JInt r) ->
  scale_value (JInt n') scale_factor = Ok (JInt r') ->
  r <= r' /\ Z.abs (2 * r - n) <= 1 /\ Z.abs (2 * r' - n') <= 1.
Proof.
  intros L M U S S'.
  destruct (scale_value_small_int n) as (q & Sq & E & O); [lia |].
  destruct (scale_value_small_int n') as (q' & Sq' & E' & O'); [lia |].
  unfold scale_factor in S, S'.
  rewrite Sq in S. rewrite Sq' in S'. injection S as <-. injection S' as <-.
  destruct (Z.even n) eqn:En, (Z.even n') eqn:En';
    repeat match goal with
           | H : true = true -> _ |- _ => specialize (H eq_refl)
           | H : false = false -> _ |- _ => specialize (H eq_refl)
           | H : _ /\ _ |- _ => destruct H
           | H : Z.even _ = true |- _ =>
               apply Z.even_spec in H; destruct H as [? H]
           end; lia.
Qed.

Lemma scale_value_monotone_witness :
  4 <= 6 /\ Z.abs (2 * 4 - 9) <= 1 /\ Z.abs (2 * 6 - 11) <= 1.
Proof.
  apply (scale_value_monotone 9 11 4 6);
    [lia | lia | lia | vm_compute; reflexivity | vm_compute; reflexivity].
Defined.

Lemma round_half_even_nearest (m e : Z) :
  0 < m -> nearest_even (round_half_even m e) m e.
Proof.
  intro Hm. unfold nearest_even, round_half_even. split.
  - intro He. destruct (Z.leb_spec 0 e); [reflexivity | lia].
  - intro He. destruct (Z.leb_spec 0 e) as [G | _]; [lia |]. cbv zeta.
    assert (D : 0 < 2 ^ (- e)) by (apply Z.pow_pos_nonneg; lia).
    pose proof (Z.div_mod m (2 ^ (- e)) ltac:(lia)) as E.
    pose proof (Z.mod_pos_bound m (2 ^ (- e)) D) as B.
    set (d := 2 ^ (- e)) in *. set (q := m / d) in *. set (r := m mod d) in *.
    clearbody q r. clearbody d.
    destruct (Z.compare_spec (2 * r) d) as [C | C | C].
    + destruct (Z.even q) eqn:Q.
      * split; [| intros _; exact Q].
        replace (q * d - m) with (- r) by (rewrite E; ring). lia.
      * split.
        -- replace ((q + 1) * d - m) with (d - r) by (rewrite E; ring). lia.
        -- intros _. now rewrite Z.add_1_r, Z.even_succ, <- Z.negb_even, Q.
    + replace (q * d - m) with (- r) by (rewrite E; ring). split; lia.
    + replace ((q + 1) * d - m) with (d - r) by (rewrite E; ring). split; lia.
Qed.

Lemma round_half_even_tiny (m e : Z) :
  0 < m < 2 ^ 53 -> e <= -55 -> round_half_even m e = 0.
Proof.
  intros [L U] He. unfold round_half_even.
  destruct (Z.leb_spec 0 e) as [G | _]; [lia |]. cbv zeta.
  assert (P : 2 ^ 54 <= 2 ^ (- e)) by (apply Z.pow_le_mono_r; lia).
  assert (Q : 2 ^ 54 = 2 * 2 ^ 53) by reflexivity.
  revert P Q U. generalize (2 ^ 53) (2 ^ 54) (2 ^ (- e)). intros a b d P Q U.
  rewrite Z.mod_small, Z.div_small by lia.
  destruct (Z.compare_spec (2 * m) d); [lia | reflexivity | lia].
Qed.

Lemma scale_value_on_float (f : float) :
  match Prim2SF f with
  | S754_nan => scale_value (JFloat f) scale_factor = Raise ValueError
  | S754_infinity _ => scale_value (JFloat f) scale_factor = Raise OverflowError
  | S754_zero _ => scale_value (JFloat f) scale_factor = Ok (JInt 0)
  | S754_finite s m e =>
      exists q,
        scale_value (JFloat f) scale_factor = Ok (JInt (cond_Zopp s q)) /\
        nearest_even q (Zpos m) (e - 1)
  end.
Proof.
  unfold scale_value, scale_factor. cbn [as_number py_mul to_float bind].
  unfold py_round. rewrite mul_spec. unfold SF64mul.
  change (Prim2SF half) with (sf_pow2 1).
  pose proof (Prim2SF_valid f) as V.
  destruct (Prim2SF f) as [s | s | | s m e]; try (now destruct s);
    [reflexivity |].
  apply bounded_cases in V as (C & L & [[-> D] | [G D]]).
  - rewrite (SFmul_pow2_sub1 s m (-1074) 1 D eq_refl).
    assert (Bm : 0 < Zpos m < 2 ^ 53) by (split; [lia | now apply digits2_pos_lt]).
    pose proof (rne1_bounds (Zpos m) ltac:(lia)) as Br.
    exists (round_half_even (Zpos m) (-1074 - 1)). split.
    + rewrite (round_half_even_tiny (Zpos m) (-1074 - 1)) by lia.
      destruct (rne1 (Zpos m)) as [| p | p] eqn:R; simpl sf_sub; cbn [bind].
      * now destruct s.
      * rewrite (round_half_even_tiny (Zpos p) (-1074)) by lia. reflexivity.
      * lia.
    + apply round_half_even_nearest. lia.
  - rewrite SFmul_pow2_exact.
    + cbn [bind]. exists (round_half_even (Zpos m) (e - 1)).
      split; [reflexivity |]. apply round_half_even_nearest. lia.
    + rewrite D. unfold fexp, SpecFloat.emin, prec, emax. lia.
    + lia.
Qed.

(** X9. [scale_value] on a float, under the script's factor: [NaN] raises
    [ValueError], an infinity raises [OverflowError], a zero gives 0, and a
    finite [+-m * 2^e] gives the integer nearest to its exact half
    [+-m * 2^(e-1)], the even one on a tie: the float product costs no
    second rounding. *)
Theorem scale_value_float (f : float) :
  match Prim2SF f with
  | S754_nan => scale_value (JFloat f) scale_factor = Raise ValueError
  | S754_infinity _ => scale_value (JFloat f) scale_factor = Raise OverflowError
  | S754_zero _ => scale_value (JFloat f) scale_factor = Ok (JInt 0)
  | S754_finite s m e =>
      exists q,
        scale_value (JFloat f) scale_factor = Ok (JInt (cond_Zopp s q)) /\
        nearest_even q (Zpos m) (e - 1)
  end.
Proof. apply scale_value_on_float. Qed.

(** ** [scale_dict] on what it is given *)

Lemma py_in_raise (key : string) (a : json) (e : exn) :
  py_in key a = Raise e -> e = TypeError.
Proof. destruct a; simpl; intro H; try discriminate; now injection H. Qed.

Lemma update_at_not_dict (name : string) (f : json -> result json) (a : json) :
  (forall d, a <> JDict d) ->
  update_at name f a =
  match py_in name a with
  | Ok false => Ok a
  | _ => Raise TypeError
  end.
Proof.
  intro N. unfold update_at.
  destruct a as [| b | n | x | s | l | d]; simpl; try reflexivity.
  now destruct (N d).
Qed.

Lemma update_all_on_not_dict (f : json -> result json) (names : list string)
      (a : json) :
  (forall d, a <> JDict d) ->
  update_all names f a =
  if forallb (fun c => match py_in c a with Ok false => true | _ => false end) names
  then Ok a else Raise TypeError.
Proof.
  intro N. induction names as [| n names IH]; simpl; [reflexivity |].
  rewrite (update_at_not_dict n f a N).
  destruct (py_in n a) as [[|] |]; simpl; auto.
Qed.

(** X10. Given something that is not a dict, [scale_dict] hands it back
    untouched when none of [x], [y], [w], [h] is [in] it (a list without
    these strings, a string without these letters) and raises [TypeError]
    in every other case (a number, [null], a list holding one of the
    strings, a string containing one of the letters). *)
Theorem scale_dict_on_not_a_dict (a : json) (factor : pynum) :
  (forall d, a <> JDict d) ->
  scale_dict a factor =
  if forallb (fun c => match py_in c a with Ok false => true | _ => false end)
             coords
  then Ok a else Raise TypeError.
Proof.
  intro N. rewrite scale_dict_update_all. now apply update_all_on_not_dict.
Qed.

Lemma scale_dict_on_not_a_dict_witness :
  scale_dict (JList [JInt 1; JStr "z"]) scale_factor
  = Ok (JList [JInt 1; JStr "z"]) /\
  scale_dict (JStr "box") scale_factor = Raise TypeError.
Proof.
  split.
  - rewrite (scale_dict_on_not_a_dict (JList [JInt 1; JStr "z"]) scale_factor);
      [reflexivity | discriminate].
  - rewrite (scale_dict_on_not_a_dict (JStr "box") scale_factor);
      [reflexivity | discriminate].
Defined.

Lemma update_at_dict_absent (name : string) (f : json -> result json) (d : dict) :
  dict_get name d = None -> update_at name f (JDict d) = Ok (JDict d).
Proof. unfold update_at, py_in, dict_mem. now intros ->. Qed.

Lemma update_at_dict_present (name : string) (f : json -> result json)
      (d : dict) (old new : json) :
  dict_get name d = Some old ->
  f old = Ok new ->
  update_at name f (JDict d) = Ok (JDict (dict_set name new d)).
Proof.
  intros G F. unfold update_at, py_in, dict_mem, py_getitem.
  rewrite G. simpl. now rewrite F.
Qed.

Lemma update_all_dict_total (f : json -> result json) (names : list string) :
  forall d : dict,
    NoDup names ->
    (forall n old, In n names -> dict_get n d = Some old ->
                   exists new, f old = Ok new) ->
    exists d', update_all names f (JDict d) = Ok (JDict d').
Proof.
  induction names as [| n names IH]; intros d ND H; simpl.
  - now exists d.
  - inversion ND as [| ? ? Hn ND']; subst.
    destruct (dict_get n d) as [old |] eqn:G.
    + destruct (H n old (or_introl eq_refl) G) as [new F].
      rewrite (update_at_dict_present n f d old new G F). simpl.
      apply IH; [assumption |].
      intros m old0 I Gm. apply (H m old0); [now right |].
      rewrite dict_get_set_other in Gm; [assumption |].
      apply String.eqb_neq. intros ->. contradiction.
    + rewrite (update_at_dict_absent n f d G). simpl.
      apply IH; [assumption |]. intros m old0 I. apply H. now right.
Qed.

(** X11. On a dict and under a float factor, [scale_dict] goes through
    exactly when each of [x], [y], [w], [h] that the dict has can be scaled;
    one value that cannot (a string, a list, [NaN]) makes the whole call
    raise. *)
Theorem scale_dict_succeeds_iff (s : dict) (f : float) :
  (exists r, scale_dict (JDict s) (PFloat f) = Ok r) <->
  (forall c v, In c coords -> dict_get c s = Some v ->
               exists v', scale_value v (PFloat f) = Ok v').
Proof.
  generalize (PFloat f). intro factor.
  rewrite scale_dict_update_all. split.
  - intros [r H] c v I G.
    destruct (update_all_dict _ _ _ _ NoDup_coords H) as (s' & _ & _ & U & _).
    destruct (U c v I G) as (v' & S & _). eauto.
  - intro H.
    destruct (update_all_dict_total (fun v => scale_value v factor) coords s
                                    NoDup_coords H) as [s' E].
    eauto.
Qed.

(** ** What the frame scaler can raise, and when it goes through *)

Lemma update_at_raise (name : string) (f : json -> result json) (a : json)
      (e : exn) :
  update_at name f a = Raise e ->
  e = TypeError \/ exists old, f old = Raise e.
Proof.
  unfold update_at. destruct (py_in name a) as [[|] |] eqn:P; simpl.
  - destruct a; simpl in *; try discriminate;
      try (intro H; injection H as <-; now left).
    unfold dict_mem in P. destruct (dict_get name d) as [old |]; [| discriminate].
    simpl. destruct (f old) eqn:F; simpl; [discriminate |].
    intro H. injection H as <-. right. eauto.
  - discriminate.
  - intro H. injection H as <-. left. eapply py_in_raise, P.
Qed.

Lemma update_all_raise (names : list string) (f : json -> result json) (e : exn) :
  forall a,
    update_all names f a = Raise e ->
    e = TypeError \/ exists old, f old = Raise e.
Proof.
  induction names as [| n names IH]; intros a H; simpl in H; [discriminate |].
  destruct (update_at n f a) eqn:U; simpl in H.
  - eapply IH, H.
  - injection H as <-. eapply update_at_raise, U.
Qed.

Lemma scale_value_raise (v : json) (factor : pynum) (e : exn) :
  scale_value v factor = Raise e ->
  e = TypeError \/ e = ValueError \/ e = OverflowError.
Proof.
  unfold scale_value. destruct (as_number v) as [n |];
    [| intro H; injection H as <-; auto].
  destruct (py_mul n factor) as [[z | x] |] eqn:P; simpl.
  - discriminate.
  - destruct (py_round x) eqn:Q; simpl; [discriminate |].
    intro H. injection H as <-. right. eapply py_round_raise, Q.
  - intro H. injection H as <-. right. right. eapply py_mul_raise, P.
Qed.

Lemma scale_frame_raise (frame : json) (e : exn) :
  scale_frame frame = Raise e ->
  e = TypeError \/ e = ValueError \/ e = OverflowError.
Proof.
  rewrite scale_frame_update_all. intro H.
  apply update_all_raise in H as [-> | [sub H]]; [auto |].
  rewrite scale_dict_update_all in H.
  apply update_all_raise in H as [-> | [old H]]; [auto |].
  eapply scale_value_raise, H.
Qed.

Lemma frames_loop_raise (items : dict) (e : exn) :
  forall cur,
    frames_loop items cur = Raise e ->
    exists k frame, In (k, frame) items /\ scale_frame frame = Raise e.
Proof.
  induction items as [| [k frame] rest IH]; intros cur H; simpl in H;
    [discriminate |].
  destruct (scale_frame frame) eqn:S; simpl in H.
  - destruct (IH _ H) as (k1 & f1 & I & E). exists k1, f1. simpl. auto.
  - injection H as <-. exists k, frame. simpl. auto.
Qed.

(** X12. The frame scaler raises [AttributeError] exactly when the
    document is not a dict or its [frames] entry is not a dict: such a
    document always makes it raise, and nothing else raises this
    exception.  Its only other exceptions are [TypeError], [ValueError]
    and [OverflowError], from a frame or a field of the wrong kind: never a
    [KeyError]. *)
Theorem scale_frames_errors (D : json) :
  (scale_frames D = Raise AttributeError <->
   (forall d, D <> JDict d) \/
   (exists d v, D = JDict d /\ dict_get "frames" d = Some v /\
                forall frames, v <> JDict frames)) /\
  (forall e, scale_frames D = Raise e ->
             e = AttributeError \/ e = TypeError \/ e = ValueError \/
             e = OverflowError).
Proof.
  assert (R : forall e, scale_frames D = Raise e ->
                        (e = AttributeError /\
                         ((forall d, D <> JDict d) \/
                          (exists d v, D = JDict d /\
                                       dict_get "frames" d = Some v /\
                                       forall frames, v <> JDict frames))) \/
                        e = TypeError \/ e = ValueError \/ e = OverflowError).
  { intros e H.
    destruct D as [| b | n | x | s | l | d];
      try (injection H as <-; left; split; [reflexivity |];
           left; discriminate).
    simpl in H. destruct (dict_get "frames" d) as [v |] eqn:G; [| discriminate].
    destruct v as [| b | n | x | s | l | frames];
      try (injection H as <-; left; split; [reflexivity |];
           right; eexists; eexists;
           split; [reflexivity |]; split; [exact G | discriminate]).
    destruct (frames_loop frames frames) eqn:F; simpl in H; [discriminate |].
    injection H as <-.
    apply frames_loop_raise in F as (k & frame & _ & S).
    apply scale_frame_raise in S. now right. }
  split; [split |].
  - intro H. destruct (R _ H) as [[_ C] | [E | [E | E]]];
      [exact C | discriminate | discriminate | discriminate].
  - intros [N | (d & v & -> & G & N)].
    + destruct D; try reflexivity. now destruct (N d).
    + simpl. rewrite G. destruct v; try reflexivity. now destruct (N d0).
  - intros e H. destruct (R _ H) as [[-> _] | E]; auto.
Qed.

Lemma scale_frames_errors_witness :
  scale_frames (JDict [("frames", JList [])]) = Raise AttributeError /\
  scale_frames (JList []) = Raise AttributeError.
Proof.
  split.
  - apply (proj1 (scale_frames_errors (JDict [("frames", JList [])]))).
    right. exists [("frames", JList [])], (JList []).
    repeat split; discriminate.
  - apply (proj1 (scale_frames_errors (JList []))). left. discriminate.
Defined.

Lemma scalable_scaled (v : json) :
  scalable v -> exists v', scale_value v scale_factor = Ok v'.
Proof.
  destruct v as [| b | n | x | s | l | d]; simpl; try contradiction.
  - intros _. destruct b; eexists; vm_compute; reflexivity.
  - intro B. destruct (scale_value_small_int n B) as (r & S & _). eauto.
  - intro F. pose proof (scale_value_on_float x) as S.
    destruct (Prim2SF x); try contradiction; [eauto |].
    destruct S as (q & S & _). eauto.
Qed.

Lemma frames_loop_total (items : dict) :
  (forall k frame, In (k, frame) items -> exists frame', scale_frame frame = Ok frame') ->
  forall cur, exists cur', frames_loop items cur = Ok cur'.
Proof.
  induction items as [| [k frame] rest IH]; intros H cur; simpl.
  - now exists cur.
  - destruct (H k frame (or_introl eq_refl)) as [frame' ->]. simpl.
    apply IH. intros k0 f0 I. apply (H k0 f0). now right.
Qed.

Lemma frame_ok_scaled (frame : json) :
  frame_ok frame -> exists frame', scale_frame frame = Ok frame'.
Proof.
  intros (frd & -> & H). rewrite scale_frame_update_all.
  destruct (update_all_dict_total (fun s => scale_dict s scale_factor) subs frd
                                  NoDup_subs) as [d' E]; [| eauto].
  intros sub s I G. destruct (H sub s I G) as (sd & -> & Hc).
  rewrite scale_dict_update_all.
  destruct (update_all_dict_total (fun v => scale_value v scale_factor) coords sd
                                  NoDup_coords) as [s' Es]; [| eauto].
  intros c v Ic Gc. apply scalable_scaled. eapply Hc; eassumption.
Qed.

(** X13. The frame scaler goes through on every atlas of the expected
    kind: a dict whose [frames] is a dict of frames, each a dict whose
    [frame], [spriteSourceSize] and [sourceSize], where present, are dicts
    whose [x], [y], [w], [h], where present, are booleans, ints below [2^53]
    in magnitude or finite floats. *)
Theorem scale_frames_succeeds (d frames : dict) :
  dict_get "frames" d = Some (JDict frames) ->
  (forall k frame, In (k, frame) frames -> frame_ok frame) ->
  exists D', scale_frames (JDict d) = Ok D'.
Proof.
  intros G H. simpl. rewrite G.
  destruct (frames_loop_total frames) with (cur := frames) as [frames' ->].
  - intros k frame I. apply frame_ok_scaled. eapply H, I.
  - simpl. eauto.
Qed.

Lemma scale_frames_succeeds_witness :
  exists D', scale_frames sample_atlas = Ok D'.
Proof.
  apply (scale_frames_succeeds
           [("frames",
             JDict [("hero.png",
                     JDict [("frame", JDict [("x", JInt 10); ("y", JInt 20);
                                             ("w", JInt 30); ("h", JInt 40)]);
                            ("rotated", JBool false);
                            ("sourceSize", JDict [("w", JInt 11); ("h", JInt 9);
                                                  ("unit", JStr "px")])])]);
            ("size", JDict [("w", JInt 100); ("h", JInt 50)])]
           [("hero.png",
             JDict [("frame", JDict [("x", JInt 10); ("y", JInt 20);
                                     ("w", JInt 30); ("h", JInt 40)]);
                    ("rotated", JBool false);
                    ("sourceSize", JDict [("w", JInt 11); ("h", JInt 9);
                                          ("unit", JStr "px")])])]).
  - reflexivity.
  - intros k frame [E | []]. injection E as <- <-.
    eexists. split; [reflexivity |].
    intros sub s [<- | [<- | [<- | []]]] G; simpl in G; try discriminate;
      injection G as <-;
      (eexists; split; [reflexivity |];
       intros c v [<- | [<- | [<- | [<- | []]]]] Gc; simpl in Gc;
       try discriminate; injection Gc as <-; simpl; split; reflexivity).
Defined.

(** X14. Of the top-level entries of a document the frame scaler changes
    only [frames]: the keys stay as they are, in their order, and every
    other entry, [size] or any other, keeps its value whatever it is. *)
Theorem only_frames_entry_changes (d : dict) (D' : json) :
  scale_frames (JDict d) = Ok D' ->
  exists d',
    D' = JDict d' /\
    map fst d' = map fst d /\
    forall k, k <> "frames" -> dict_get k d' = dict_get k d.
Proof.
  simpl. destruct (dict_get "frames" d) as [v |] eqn:G.
  - destruct v; try discriminate. intro H. bind_inv H. injection H as <-.
    eexists. split; [reflexivity |]. split.
    + apply keys_dict_set. eapply has_key_dict_get, G.
    + intros k N. apply dict_get_set_other. now apply String.eqb_neq.
  - intro H. injection H as <-. exists d. auto.
Qed.

Lemma only_frames_entry_changes_witness :
  exists d',
    sample_atlas_scaled = JDict d' /\
    dict_get "size" d' = Some (JDict [("w", JInt 100); ("h", JInt 50)]).
Proof.
  destruct (only_frames_entry_changes
              [("frames",
                JDict [("hero.png",
                        JDict [("frame", JDict [("x", JInt 10); ("y", JInt 20);
                                                ("w", JInt 30); ("h", JInt 40)]);
                               ("rotated", JBool false);
                               ("sourceSize", JDict [("w", JInt 11); ("h", JInt 9);
                                                     ("unit", JStr "px")])])]);
               ("size", JDict [("w", JInt 100); ("h", JInt 50)])]
              sample_atlas_scaled)
    as (d' & E & _ & O).
  - vm_compute. reflexivity.
  - exists d'. split; [exact E |]. rewrite O; [reflexivity | discriminate].
Defined.

(** ** The two programs *)

(** X16. A run of either script that ends in an uncaught exception has
    printed nothing.  It has changed no file either, with one exception:
    the run that got as far as opening the output file and then failed
    while writing it.  That run ends in [OSError], leaves in the output
    file what had reached it, and leaves every other file as it was.  So a
    missing input file, text that is not JSON, a document the transform
    rejects or an output file that cannot be opened cost nothing, the
    output file being opened only once the transform is done. *)
Theorem failed_run_changes_little
        (json_loads : string -> option json) (json_dumps : nat -> json -> string)
        (argv : list string) (w : world) (e : exn) :
  (fst (ScaleConfig.main json_loads json_dumps argv w) = Uncaught e ->
   stdout (snd (ScaleConfig.main json_loads json_dumps argv w)) = stdout w /\
   (files (snd (ScaleConfig.main json_loads json_dumps argv w)) = files w \/
    exists prog input_file output_file text data scaled_data partial,
      argv = [prog; input_file; output_file] /\
      files w input_file = Some text /\
      json_loads text = Some data /\
      scale_destinations (PFloat half) data = Ok scaled_data /\
      writable w output_file = true /\
      write_error w output_file (json_dumps 3%nat scaled_data)
      = Some partial /\
      e = OSError /\
      write_failed w output_file partial
                   (snd (ScaleConfig.main json_loads json_dumps argv w)))) /\
  (fst (ScaleFrames.main json_loads json_dumps argv w) = Uncaught e ->
   stdout (snd (ScaleFrames.main json_loads json_dumps argv w)) = stdout w /\
   (files (snd (ScaleFrames.main json_loads json_dumps argv w)) = files w \/
    exists prog input_file output_file text data scaled_data partial,
      argv = [prog; input_file; output_file] /\
      files w input_file = Some text /\
      json_loads text = Some data /\
      scale_frames data = Ok scaled_data /\
      writable w output_file = true /\
      write_error w output_file (json_dumps 4%nat scaled_data)
      = Some partial /\
      e = OSError /\
      write_failed w output_file partial
                   (snd (ScaleFrames.main json_loads json_dumps argv w)))).
Proof.
  split.
  - unfold ScaleConfig.main.
    destruct argv as [| a0 [| a1 [| a2 [| a3 rest]]]]; try discriminate.
    unfold read_file. destruct (files w a1) as [text |] eqn:F; [| auto].
    destruct (json_loads text) as [data |] eqn:L; [| auto].
    destruct (scale_destinations (PFloat half) data) as [r | e'] eqn:S; [| auto].
    unfold write_file. simpl.
    destruct (writable w a2) eqn:Wr; [| auto].
    destruct (write_error w a2 (json_dumps 3%nat r)) as [partial |] eqn:We;
      [| discriminate].
    simpl. intro H. injection H as <-. split; [reflexivity |]. right.
    exists a0, a1, a2, text, data, r, partial.
    repeat split; try assumption.
    + simpl. now rewrite String.eqb_refl.
    + simpl. intros q N. apply String.eqb_neq in N. now rewrite N.
  - unfold ScaleFrames.main.
    destruct argv as [| a0 [| a1 [| a2 [| a3 rest]]]]; try discriminate.
    unfold read_file. destruct (files w a1) as [text |] eqn:F; [| auto].
    destruct (json_loads text) as [data |] eqn:L; [| auto].
    destruct (scale_frames data) as [r | e'] eqn:S; [| auto].
    unfold write_file. simpl.
    destruct (writable w a2) eqn:Wr; [| auto].
    destruct (write_error w a2 (json_dumps 4%nat r)) as [partial |] eqn:We;
      [| discriminate].
    simpl. intro H. injection H as <-. split; [reflexivity |]. right.
    exists a0, a1, a2, text, data, r, partial.
    repeat split; try assumption.
    + simpl. now rewrite String.eqb_refl.
    + simpl. intros q N. apply String.eqb_neq in N. now rewrite N.
Qed.

Lemma failed_run_changes_little_witness :
  fst (ScaleFrames.main (fun _ => Some (JDict [])) (fun _ _ => "{}")
         ["scale_frames.py"; "in.json"; "out.json"] full_disk_world)
  = Uncaught OSError /\
  stdout (snd (ScaleFrames.main (fun _ => Some (JDict [])) (fun _ _ => "{}")
                 ["scale_frames.py"; "in.json"; "out.json"] full_disk_world))
  = [] /\
  files (snd (ScaleFrames.main (fun _ => Some (JDict [])) (fun _ _ => "{}")
                ["scale_frames.py"; "in.json"; "out.json"] full_disk_world))
        "out.json"
  = Some "{".
Proof.
  split; [reflexivity |]. split; [| reflexivity].
  exact (proj1
           (proj2 (failed_run_changes_little
                     (fun _ => Some (JDict [])) (fun _ _ => "{}")
                     ["scale_frames.py"; "in.json"; "out.json"]
                     full_disk_world OSError)
                  eq_refl)).
Defined.

(** X17. [scale_config.py] ends with status 0 exactly when it is given two
    arguments, the input file can be read and holds JSON text,
    [scale_destinations] with factor 0.5 accepts the document, the output file can be opened for writing
    and the write of the dump goes through.  The run then leaves in the
    output file the dump, with indent 3, of the transformed document,
    leaves every other file as it was, opens the input and then the output
    and nothing else, and prints one line. *)
Theorem scale_config_run
        (json_loads : string -> option json) (json_dumps : nat -> json -> string)
        (argv : list string) (w : world) :
  (fst (ScaleConfig.main json_loads json_dumps argv w) = Exited 0 <->
   exists prog input_file output_file text data scaled_data,
     argv = [prog; input_file; output_file] /\
     files w input_file = Some text /\
     json_loads text = Some data /\
     scale_destinations (PFloat half) data = Ok scaled_data /\
     writable w output_file = true /\
     write_error w output_file (json_dumps 3%nat scaled_data) = None) /\
  (forall prog input_file output_file text data scaled_data,
     argv = [prog; input_file; output_file] ->
     files w input_file = Some text ->
     json_loads text = Some data ->
     scale_destinations (PFloat half) data = Ok scaled_data ->
     writable w output_file = true ->
     write_error w output_file (json_dumps 3%nat scaled_data) = None ->
     run_ok w input_file output_file (json_dumps 3%nat scaled_data)
            ("Scaled all dest_x and dest_y values by 50% and saved to "
               ++ output_file)%string
            (snd (ScaleConfig.main json_loads json_dumps argv w))).
Proof.
  split; [split |].
  - unfold ScaleConfig.main.
    destruct argv as [| a0 [| a1 [| a2 [| a3 rest]]]]; try discriminate.
    unfold read_file. destruct (files w a1) as [text |] eqn:F; [| discriminate].
    destruct (json_loads text) as [data |] eqn:L; [| discriminate].
    destruct (scale_destinations (PFloat half) data) as [r | e] eqn:S; [| discriminate].
    unfold write_file. simpl.
    destruct (writable w a2) eqn:Wr; [| discriminate].
    destruct (write_error w a2 (json_dumps 3%nat r)) eqn:We; [discriminate |].
    intros _. exists a0, a1, a2, text, data, r. auto 6.
  - intros (prog & input_file & output_file & text & data & r
            & -> & F & L & S & Wr & We).
    unfold ScaleConfig.main, read_file. rewrite F, L, S.
    unfold write_file. simpl. now rewrite Wr, We.
  - intros prog input_file output_file text data r -> F L S Wr We.
    unfold ScaleConfig.main, read_file. rewrite F, L, S.
    unfold write_file. simpl. rewrite Wr, We. unfold run_ok. simpl.
    rewrite String.eqb_refl, <- app_assoc. repeat split.
    intros q N. apply String.eqb_neq in N. now rewrite N.
Qed.

(** X18. [scale_frames.py] ends with status 0 exactly when it is given two
    arguments, the input file can be read and holds JSON text,
    the loop over the frames accepts the document, the output file can be opened for writing
    and the write of the dump goes through.  The run then leaves in the
    output file the dump, with indent 4, of the transformed document,
    leaves every other file as it was, opens the input and then the output
    and nothing else, and prints one line. *)
Theorem scale_frames_run
        (json_loads : string -> option json) (json_dumps : nat -> json -> string)
        (argv : list string) (w : world) :
  (fst (ScaleFrames.main json_loads json_dumps argv w) = Exited 0 <->
   exists prog input_file output_file text data scaled_data,
     argv = [prog; input_file; output_file] /\
     files w input_file = Some text /\
     json_loads text = Some data /\
     scale_frames data = Ok scaled_data /\
     writable w output_file = true /\
     write_error w output_file (json_dumps 4%nat scaled_data) = None) /\
  (forall prog input_file output_file text data scaled_data,
     argv = [prog; input_file; output_file] ->
     files w input_file = Some text ->
     json_loads text = Some data ->
     scale_frames data = Ok scaled_data ->
     writable w output_file = true ->
     write_error w output_file (json_dumps 4%nat scaled_data) = None ->
     run_ok w input_file output_file (json_dumps 4%nat scaled_data)
            "Done. Your frames have been scaled."
            (snd (ScaleFrames.main json_loads json_dumps argv w))).
Proof.
  split; [split |].
  - unfold ScaleFrames.main.
    destruct argv as [| a0 [| a1 [| a2 [| a3 rest]]]]; try discriminate.
    unfold read_file. destruct (files w a1) as [text |] eqn:F; [| discriminate].
    destruct (json_loads text) as [data |] eqn:L; [| discriminate].
    destruct (scale_frames data) as [r | e] eqn:S; [| discriminate].
    unfold write_file. simpl.
    destruct (writable w a2) eqn:Wr; [| discriminate].
    destruct (write_error w a2 (json_dumps 4%nat r)) eqn:We; [discriminate |].
    intros _. exists a0, a1, a2, text, data, r. auto 6.
  - intros (prog & input_file & output_file & text & data & r
            & -> & F & L & S & Wr & We).
    unfold ScaleFrames.main, read_file. rewrite F, L, S.
    unfold write_file. simpl. now rewrite Wr, We.
  - intros prog input_file output_file text data r -> F L S Wr We.
    unfold ScaleFrames.main, read_file. rewrite F, L, S.
    unfold write_file. simpl. rewrite Wr, We. unfold run_ok. simpl.
    rewrite String.eqb_refl, <- app_assoc. repeat split.
    intros q N. apply String.eqb_neq in N. now rewrite N.
Qed.
